(** * ocean_blue: the fisheries scoring engine, embedded and verified

    A shallow embedding of the scoring code of the repository:

    - [src/utils/fisheries.js]: [evaluateSuitability],
      [calculateSustainabilityScore], [generateFisheriesAlerts];
    - the Express server's [/api/fisheries] handler (the "Unified Risk
      Framework"), whose [end] callback is the risk scorer;
    - [computeStats] of [utils/anomaly], which the charts import.

    JavaScript numbers are modelled by [JS.num]: the IEEE special values
    [NaN], [+Infinity], [-Infinity], and the finite values as rationals;
    the two zeros are identified.  Every operation follows ECMAScript on
    the special values, so a division by zero produces [Infinity] or
    [NaN] here exactly where it does in the source.

    Two arithmetics are given on these numbers.  [JS] has the exact
    operations; it carries the properties that rest on the order of the
    numbers and on the special values only.  [F64] rounds every
    operation to the nearest double, ties to even, with overflow to the
    infinities; the properties that depend on the computed value (the
    formulas, the bounds of the scores, the statistics) are stated over
    the double-precision definitions of [Risk64], [Fisheries64] and
    [Anomaly]. *)

From Stdlib Require Import ZArith QArith Qround Qabs Qminmax Qpower.
From Stdlib Require Import Qreduction Lqa Lia.
From Stdlib Require Import List String Bool Setoid Morphisms.
Import ListNotations.

Local Open Scope string_scope.
Local Open Scope list_scope.
Local Open Scope Q_scope.

(* ================================================================== *)
(** * JavaScript numbers *)
(* ================================================================== *)

Module JS.

Inductive num : Type :=
| NaN
| PInf
| NInf
| Fin (q : Q).

Definition Qltb (a b : Q) : bool := negb (Qle_bool b a).

Definition of_Z (z : Z) : num := Fin (inject_Z z).

(** [array.length] as a number. *)
Definition of_nat (n : nat) : num := of_Z (Z.of_nat n).

Definition is_nan (x : num) : bool :=
  match x with NaN => true | _ => false end.

Definition is_finite (x : num) : bool :=
  match x with Fin _ => true | _ => false end.

(** The infinity of the sign of a comparison with zero; [0 * Infinity]
    and [0 / 0] are [NaN]. *)
Definition inf_of (c : comparison) : num :=
  match c with Gt => PInf | Lt => NInf | Eq => NaN end.

Definition neg (x : num) : num :=
  match x with
  | NaN => NaN
  | PInf => NInf
  | NInf => PInf
  | Fin q => Fin (- q)
  end.

(** [x + y] *)
Definition add (x y : num) : num :=
  match x, y with
  | NaN, _ | _, NaN => NaN
  | PInf, NInf | NInf, PInf => NaN
  | PInf, _ | _, PInf => PInf
  | NInf, _ | _, NInf => NInf
  | Fin a, Fin b => Fin (a + b)
  end.

(** [x - y] *)
Definition sub (x y : num) : num := add x (neg y).

(** [x * y] *)
Definition mul (x y : num) : num :=
  match x, y with
  | NaN, _ | _, NaN => NaN
  | PInf, PInf | NInf, NInf => PInf
  | PInf, NInf | NInf, PInf => NInf
  | PInf, Fin b | Fin b, PInf => inf_of (b ?= 0)
  | NInf, Fin b | Fin b, NInf => inf_of (CompOpp (b ?= 0))
  | Fin a, Fin b => Fin (a * b)
  end.

(** [x / y]: a finite non-zero number over zero is an infinity, zero
    over zero is [NaN]. *)
Definition div (x y : num) : num :=
  match x, y with
  | NaN, _ | _, NaN => NaN
  | PInf, PInf | PInf, NInf | NInf, PInf | NInf, NInf => NaN
  | PInf, Fin b => if Qltb b 0 then NInf else PInf
  | NInf, Fin b => if Qltb b 0 then PInf else NInf
  | Fin _, PInf | Fin _, NInf => Fin 0
  | Fin a, Fin b => if Qeq_bool b 0 then inf_of (a ?= 0) else Fin (a / b)
  end.

(** [x < y]; every comparison with [NaN] is false. *)
Definition lt (x y : num) : bool :=
  match x, y with
  | NaN, _ | _, NaN => false
  | _, NInf => false
  | NInf, _ => true
  | PInf, _ => false
  | Fin _, PInf => true
  | Fin a, Fin b => Qltb a b
  end.

(** [x <= y] *)
Definition le (x y : num) : bool :=
  match x, y with
  | NaN, _ | _, NaN => false
  | NInf, _ => true
  | _, PInf => true
  | _, NInf => false
  | PInf, _ => false
  | Fin a, Fin b => Qle_bool a b
  end.

(** [x > y] and [x >= y] *)
Definition gt (x y : num) : bool := lt y x.
Definition ge (x y : num) : bool := le y x.

(** [Math.min(x, y)] and [Math.max(x, y)]: [NaN] if either is. *)
Definition min (x y : num) : num :=
  match x, y with
  | NaN, _ | _, NaN => NaN
  | _, _ => if le x y then x else y
  end.

Definition max (x y : num) : num :=
  match x, y with
  | NaN, _ | _, NaN => NaN
  | _, _ => if le y x then x else y
  end.

(** [Math.round(x)]: the nearest integer, halves towards [+Infinity]. *)
Definition round (x : num) : num :=
  match x with
  | Fin q => of_Z (Qfloor (q + (1 # 2)))
  | _ => x
  end.

(** [parseFloat(x.toFixed(1))]: one decimal, halves away from zero; a
    number of magnitude [1e21] or more, and a special value, print and
    parse back as themselves. *)
Definition toFixed1 (x : num) : num :=
  match x with
  | Fin q =>
      if Qle_bool (inject_Z (10 ^ 21)) (Qabs q) then x
      else
        let n := Qfloor (Qabs q * 10 + (1 # 2)) in
        Fin (inject_Z (if Qltb q 0 then - n else n) / 10)
  | _ => x
  end.

(** Equality of numbers up to the representation of a rational. *)
Definition equiv (x y : num) : Prop :=
  match x, y with
  | NaN, NaN | PInf, PInf | NInf, NInf => True
  | Fin a, Fin b => a == b
  | _, _ => False
  end.

(** [y] is not below [x]: one of them is [NaN], or [x <= y]. *)
Definition nondecr (x y : num) : Prop :=
  is_nan x = true \/ is_nan y = true \/ le x y = true.

(** [x] is an integer between [lo] and [hi]. *)
Definition int_in (lo hi : Z) (x : num) : Prop :=
  exists z : Z, x = of_Z z /\ (lo <= z <= hi)%Z.

End JS.

Declare Scope js_scope.
Delimit Scope js_scope with js.
Bind Scope js_scope with JS.num.

Infix "+" := JS.add : js_scope.
Infix "-" := JS.sub : js_scope.
Infix "*" := JS.mul : js_scope.
Infix "/" := JS.div : js_scope.
Infix "<?" := JS.lt (at level 70, no associativity) : js_scope.
Infix "<=?" := JS.le (at level 70, no associativity) : js_scope.
Infix ">?" := JS.gt (at level 70, no associativity) : js_scope.
Infix ">=?" := JS.ge (at level 70, no associativity) : js_scope.

(** A numeric literal of the source: [$0.5] is the number [0.5]. *)
Notation "$ q" := (JS.Fin q%Q) (at level 5, q at level 1, format "$ q").

(** A template literal, kept as its parts: the literal text and the
    interpolated values.  How [Number.prototype.toString] prints a number
    is not modelled. *)
Inductive piece : Type :=
| Lit (s : string)
| Str (s : string)
| Num (n : JS.num).

Definition template := list piece.

(* ================================================================== *)
(** * [src/utils/fisheries.js]: the logic engine of the fisheries module *)
(* ================================================================== *)

Module Fisheries.

(** What [new Date()] reads from the wall clock; [getMonth] is 0-based. *)
Record Date : Type := {
  getFullYear : Z;
  getMonth : nat;
  getDate : nat
}.

(** A species of [species.json]; [temp_range] is the two-element array
    [[low, high]]. *)
Record Species : Type := {
  id : JS.num;
  name : string;
  temp_range : JS.num * JS.num;
  max_wave_height : JS.num;
  season_months : list JS.num;
  legal_status : string;
  stock_health : JS.num;
  trend : string
}.

(** The latest ocean data. *)
Record CurrentData : Type := {
  sea_surface_temp : JS.num;
  wave_height : JS.num
}.

Record Suitability : Type := {
  suitable : bool;
  reason : template
}.

Record Alert : Type := {
  type : string;
  message : template
}.

(** [x === y] on numbers as [Array.prototype.includes] takes it
    (SameValueZero: [NaN] is found in an array that holds it). *)
Definition sameValueZero (x y : JS.num) : bool :=
  match x, y with
  | JS.NaN, JS.NaN | JS.PInf, JS.PInf | JS.NInf, JS.NInf => true
  | JS.Fin a, JS.Fin b => Qeq_bool a b
  | _, _ => false
  end.

(** [array.includes(x)] *)
Definition includes (l : list JS.num) (x : JS.num) : bool :=
  existsb (fun y => sameValueZero y x) l.

Definition protected_reason : template :=
  [Lit "Species is legally protected. Conservation active."].

Definition season_reason : template :=
  [Lit "Outside of legal fishing season."].

Definition temp_reason (temp lo hi : JS.num) : template :=
  [Lit "Water temp ("; Num temp; Lit "°C) outside optimal range (";
   Num lo; Lit "-"; Num hi; Lit "°C)."].

Definition wave_reason (wave limit : JS.num) : template :=
  [Lit "Wave height ("; Num wave; Lit "m) exceeds safety limit (";
   Num limit; Lit "m)."].

Definition optimal_reason : template :=
  [Lit "Conditions optimal for sustainable catch."].

(** [new Date().getMonth() + 1], from 1 to 12. *)
Definition currentMonth (now : Date) : JS.num :=
  (JS.of_nat (getMonth now) + $1)%js.

(** The test of the temperature rule:
    [temp < temp_range[0] || temp > temp_range[1]]. *)
Definition temp_outside (sp : Species) (cd : CurrentData) : bool :=
  (sea_surface_temp cd <? fst (temp_range sp))%js
  || (sea_surface_temp cd >? snd (temp_range sp))%js.

(** [evaluateSuitability(species, currentData)].  The function reads the
    wall clock ([new Date()]); the reading is the argument [now]. *)
Definition evaluateSuitability
    (now : Date) (species : Species) (currentData : CurrentData)
    : Suitability :=
  let temp := sea_surface_temp currentData in
  let wave := wave_height currentData in
  let currentMonth := currentMonth now in
  if String.eqb (legal_status species) "Protected" then
    {| suitable := false; reason := protected_reason |}
  else if negb (includes (season_months species) currentMonth) then
    {| suitable := false; reason := season_reason |}
  else if (temp <? fst (temp_range species))%js
          || (temp >? snd (temp_range species))%js then
    {| suitable := false;
       reason := temp_reason temp (fst (temp_range species))
                                  (snd (temp_range species)) |}
  else if (wave >? max_wave_height species)%js then
    {| suitable := false;
       reason := wave_reason wave (max_wave_height species) |}
  else
    {| suitable := true; reason := optimal_reason |}.

(** [calculateSustainabilityScore(speciesList, currentData)] *)
Definition calculateSustainabilityScore
    (speciesList : list Species) (currentData : CurrentData) : JS.num :=
  if (List.length speciesList =? 0)%nat then $0
  else
    let len := JS.of_nat (List.length speciesList) in
    let avgStockHealth :=
      (fold_left (fun acc s => acc + stock_health s) speciesList $0
       / len)%js in
    let suitableTempCount :=
      List.length (filter (fun s =>
        let temp := sea_surface_temp currentData in
        (temp >=? fst (temp_range s))%js
        && (temp <=? snd (temp_range s))%js) speciesList) in
    let tempScore := (JS.of_nat suitableTempCount / len * $100)%js in
    let safeWaveCount :=
      List.length (filter (fun s =>
        (wave_height currentData <=? max_wave_height s)%js)
        speciesList) in
    let waveScore := (JS.of_nat safeWaveCount / len * $100)%js in
    let totalScore :=
      (avgStockHealth * $0.4 + tempScore * $0.4 + waveScore * $0.2)%js in
    JS.round totalScore.

Definition rough_sea_alert : Alert :=
  {| type := "danger";
     message := [Lit "Rough Sea Warning: High waves pose safety risk for small vessels."] |}.

Definition low_index_alert : Alert :=
  {| type := "warning";
     message := [Lit "Low Sustainability Index: Recommendation to reduce fishing effort."] |}.

Definition biological_alert (s : Species) : Alert :=
  {| type := "warning";
     message := [Lit "Biological Alert: "; Str (name s);
                 Lit " stocks are under pressure (";
                 Num (stock_health s); Lit "%)."] |}.

Definition conservation_alert (s : Species) : Alert :=
  {| type := "info";
     message := [Lit "Conservation: "; Str (name s);
                 Lit " is strictly protected this area."] |}.

(** [alerts.push(a)]: the array with [a] appended. *)
Definition push (alerts : list Alert) (a : Alert) : list Alert :=
  alerts ++ [a].

(** The body of the [forEach] callback, on the array built so far. *)
Definition species_alerts (alerts : list Alert) (s : Species) : list Alert :=
  let alerts :=
    if (stock_health s <? $50)%js then push alerts (biological_alert s)
    else alerts in
  if String.eqb (legal_status s) "Protected"
  then push alerts (conservation_alert s)
  else alerts.

(** [generateFisheriesAlerts(speciesList, sustainabilityScore, currentData)] *)
Definition generateFisheriesAlerts
    (speciesList : list Species) (sustainabilityScore : JS.num)
    (currentData : CurrentData) : list Alert :=
  let alerts := [] in
  let alerts :=
    if (wave_height currentData >? $3)%js then push alerts rough_sea_alert
    else alerts in
  let alerts :=
    if (sustainabilityScore <? $60)%js then push alerts low_index_alert
    else alerts in
  fold_left species_alerts speciesList alerts.

End Fisheries.

(* ================================================================== *)
(** * The value handed to [res.json] *)
(* ================================================================== *)

#[local] Set Warnings "-register-all".

(** An object keeps its properties in insertion order.  The value is
    modelled before serialisation ([JSON.stringify] writes [NaN] and the
    infinities as [null]). *)
Inductive json : Type :=
| JNum (n : JS.num)
| JStr (s : string)
| JBool (b : bool)
| JArr (l : list json)
| JObj (fields : list (string * json)).

(** [o[k]], [None] for [undefined]. *)
Definition get (k : string) (o : json) : option json :=
  match o with
  | JObj fields =>
      option_map snd (find (fun kv => String.eqb (fst kv) k) fields)
  | _ => None
  end.

(* ================================================================== *)
(** * [/api/fisheries]: the unified risk framework *)
(* ================================================================== *)

Module Risk.

(** A row of [fisheries_indian_region_2023.csv] after the [data]
    callback has converted its columns ([Number(...)], [=== "true"]). *)
Record StockRecord : Type := {
  id : JS.num;
  region : string;
  species : string;
  stock_health_percent : JS.num;
  trend : string;
  msy_tonnes : JS.num;
  current_catch_tonnes : JS.num;
  protected : bool
}.

Definition record_json (r : StockRecord) : json :=
  JObj [("id", JNum (id r));
        ("region", JStr (region r));
        ("species", JStr (species r));
        ("stock_health_percent", JNum (stock_health_percent r));
        ("trend", JStr (trend r));
        ("msy_tonnes", JNum (msy_tonnes r));
        ("current_catch_tonnes", JNum (current_catch_tonnes r));
        ("protected", JBool (protected r))].

(** [results.length] *)
Definition len (results : list StockRecord) : JS.num :=
  JS.of_nat (List.length results).

Definition avgStockHealth (results : list StockRecord) : JS.num :=
  (fold_left (fun sum s => sum + stock_health_percent s) results $0
   / len results)%js.

Definition avgMSY (results : list StockRecord) : JS.num :=
  (fold_left
     (fun sum s => sum + current_catch_tonnes s / msy_tonnes s * $100)
     results $0
   / len results)%js.

Definition msyPressureScore (results : list StockRecord) : JS.num :=
  JS.min (avgMSY results) $120.

Definition is_declining (s : StockRecord) : bool :=
  String.eqb (trend s) "Declining" || String.eqb (trend s) "Critical".

Definition decliningCount (results : list StockRecord) : nat :=
  List.length (filter is_declining results).

Definition decliningPercent (results : list StockRecord) : JS.num :=
  (JS.of_nat (decliningCount results) / len results * $100)%js.

Definition climateScore (sst : JS.num) : JS.num :=
  if (sst >? $30)%js then $90
  else if (sst >? $28)%js then $60
  else if (sst >? $26)%js then $40
  else $20.

Definition sustainabilityIndex
    (results : list StockRecord) (sst : JS.num) : JS.num :=
  (avgStockHealth results * $0.5
   + ($100 - msyPressureScore results) * $0.25
   + ($100 - decliningPercent results) * $0.15
   + ($100 - climateScore sst) * $0.10)%js.

Definition finalIndex (results : list StockRecord) (sst : JS.num) : JS.num :=
  JS.max $0 (JS.min $100 (JS.round (sustainabilityIndex results sst))).

Definition collapseRisk
    (results : list StockRecord) (sst : JS.num) : JS.num :=
  (msyPressureScore results * $0.35
   + decliningPercent results * $0.25
   + ($100 - avgStockHealth results) * $0.25
   + climateScore sst * $0.15)%js.

Definition finalCollapseRisk
    (results : list StockRecord) (sst : JS.num) : JS.num :=
  JS.max $0 (JS.min $100 (JS.round (collapseRisk results sst))).

Definition projectedIndex
    (results : list StockRecord) (sst : JS.num) : JS.num :=
  (finalIndex results sst - finalCollapseRisk results sst * $0.05)%js.

Definition sustLevel (finalIndex : JS.num) : string :=
  if (finalIndex >=? $70)%js then "Sustainable"
  else if (finalIndex <? $50)%js then "Critical"
  else "Caution".

Definition riskLevel (finalCollapseRisk : JS.num) : string :=
  if (finalCollapseRisk <? $30)%js then "Low"
  else if (finalCollapseRisk >? $60)%js then "High"
  else "Moderate".

(** The numeric columns that the averages read hold numbers. *)
Definition numeric (r : StockRecord) : Prop :=
  JS.is_finite (stock_health_percent r) = true
  /\ JS.is_finite (current_catch_tonnes r) = true.

(** [msy_tonnes > 0] *)
Definition valid_msy (r : StockRecord) : Prop :=
  (msy_tonnes r >? $0)%js = true.

(** The record [r] with its [stock_health_percent] replaced. *)
Definition with_stock_health (r : StockRecord) (h : JS.num) : StockRecord :=
  {| id := id r; region := region r; species := species r;
     stock_health_percent := h; trend := trend r;
     msy_tonnes := msy_tonnes r;
     current_catch_tonnes := current_catch_tonnes r;
     protected := protected r |}.

(** The list with the stock health of its [i]-th record replaced. *)
Fixpoint update_health (i : nat) (h : JS.num) (rs : list StockRecord)
    : list StockRecord :=
  match rs, i with
  | [], _ => []
  | r :: rs, O => with_stock_health r h :: rs
  | r :: rs, S i => r :: update_health i h rs
  end.

(** [r'] is [r] but for its stock health, which is not below that of
    [r]. *)
Definition health_raised (r r' : StockRecord) : Prop :=
  r' = with_stock_health r (stock_health_percent r')
  /\ JS.nondecr (stock_health_percent r) (stock_health_percent r').

(** A value that [!] and [||] take for false: [undefined] or [""]. *)
Definition falsy (s : option string) : bool :=
  match s with
  | None => true
  | Some s => String.eqb s ""
  end.

(** The [end] callback of the CSV stream: the risk scorer proper, on the
    records that passed the region filter and the climate signal. *)
Definition scoreRisk
    (regionQuery : option string) (results : list StockRecord)
    (sst : JS.num) : json :=
  if (List.length results =? 0)%nat then JObj [("count", JNum $0)]
  else
    let finalIndex := finalIndex results sst in
    let finalCollapseRisk := finalCollapseRisk results sst in
    let projectedIndex := projectedIndex results sst in
    JObj
      [("region",
        JStr (match regionQuery with
              | Some q => if falsy regionQuery then "All Regions" else q
              | None => "All Regions"
              end));
       ("sustainability_index", JNum finalIndex);
       ("sustainability_level", JStr (sustLevel finalIndex));
       ("collapse_risk",
        JObj [("score", JNum finalCollapseRisk);
              ("level", JStr (riskLevel finalCollapseRisk))]);
       ("climate_stress",
        JObj [("sst", JNum (JS.toFixed1 sst));
              ("score", JNum (climateScore sst))]);
       ("projection",
        JObj [("index_6_month", JNum (JS.max $0 (JS.round projectedIndex)));
              ("change",
               JNum (JS.round (projectedIndex - finalIndex)%js))]);
       ("stats",
        JObj [("count", JNum (len results));
              ("avg_stock_health", JNum (JS.round (avgStockHealth results)));
              ("msy_utilization", JNum (JS.round (avgMSY results)));
              ("declining_percent",
               JNum (JS.round (decliningPercent results)));
              ("critical_species_count",
               JNum (JS.of_nat (List.length
                 (filter (fun r => (stock_health_percent r <? $40)%js)
                         results))))]);
       ("data", JArr (map record_json results))].

Section Handler.

(** [String.prototype.toLowerCase], a built-in of the language. *)
Variable toLowerCase : string -> string.

(** [req.query.region?.toLowerCase()] *)
Definition regionQuery (region : option string) : option string :=
  option_map toLowerCase region.

(** The climate signal.  [sstRes] is the outcome of the request to the
    marine API: [None] when it throws (the [catch] keeps the default),
    otherwise the hourly array, [null]s included ([[]] when the field
    is absent). *)
Definition sst_avg
    (regionQuery : option string)
    (sstRes : option (list (option JS.num))) : JS.num :=
  match sstRes with
  | None => $28.5
  | Some sstData =>
      let validSst :=
        flat_map (fun v => match v with Some x => [x] | None => [] end)
                 sstData in
      let sst_avg :=
        if (0 <? List.length validSst)%nat
        then (fold_left JS.add validSst $0
              / JS.of_nat (List.length validSst))%js
        else $28.5 in
      match regionQuery with
      | Some q =>
          if String.eqb q "indian ocean" then (sst_avg + $2.5)%js
          else sst_avg
      | None => sst_avg
      end
  end.

(** The [data] callback: keep the record when no region is asked for
    or when its region is the one asked for. *)
Definition on_data
    (regionQuery : option string) (results : list StockRecord)
    (record : StockRecord) : list StockRecord :=
  if falsy regionQuery
     || match regionQuery with
        | Some q => String.eqb (toLowerCase (region record)) q
        | None => false
        end
  then results ++ [record]
  else results.

(** The handler: [region] is [req.query.region], [file] the rows of the
    CSV file ([None] when the file does not exist).  The result is the
    HTTP status and the body. *)
Definition fisheries
    (region : option string)
    (sstRes : option (list (option JS.num)))
    (file : option (list StockRecord)) : nat * json :=
  let regionQuery := regionQuery region in
  let sst := sst_avg regionQuery sstRes in
  match file with
  | None => (404%nat, JObj [("error", JStr "Data file not found")])
  | Some rows =>
      (200%nat,
       scoreRisk regionQuery (fold_left (on_data regionQuery) rows []) sst)
  end.

End Handler.

End Risk.

(* ================================================================== *)
(** * The formulas of the specification, in its own words *)
(* ================================================================== *)

Module Spec.

(** [clamp(x, lo, hi)] *)
Definition clamp (x lo hi : JS.num) : JS.num := JS.min (JS.max x lo) hi.

(** The trend is [Declining] or [Critical]. *)
Definition declining (s : Risk.StockRecord) : bool :=
  String.eqb (Risk.trend s) "Declining"
  || String.eqb (Risk.trend s) "Critical".

(** The temperature range of the species contains the temperature. *)
Definition temp_in_range
    (cd : Fisheries.CurrentData) (s : Fisheries.Species) : bool :=
  (fst (Fisheries.temp_range s) <=? Fisheries.sea_surface_temp cd)%js
  && (Fisheries.sea_surface_temp cd <=? snd (Fisheries.temp_range s))%js.

(** The wave limit of the species is at least the current wave height. *)
Definition wave_safe
    (cd : Fisheries.CurrentData) (s : Fisheries.Species) : bool :=
  (Fisheries.max_wave_height s >=? Fisheries.wave_height cd)%js.

(** The alerts of one species: the stock warning, then the protection
    notice. *)
Definition alerts_of_species (s : Fisheries.Species) : list Fisheries.Alert :=
  (if (Fisheries.stock_health s <? $50)%js
   then [Fisheries.biological_alert s] else [])
  ++ (if String.eqb (Fisheries.legal_status s) "Protected"
      then [Fisheries.conservation_alert s] else []).

(** The stock health of the species is between 0 and 100. *)
Definition health_in_range (s : Fisheries.Species) : Prop :=
  ($0 <=? Fisheries.stock_health s)%js = true
  /\ (Fisheries.stock_health s <=? $100)%js = true.

(** The climate-stress bands
    [{ (-inf,26]: 20, (26,28]: 40, (28,30]: 60, (30,inf): 90 }]. *)
Definition climate_band (sst : Q) : Q :=
  if Qle_bool sst 26 then 20
  else if Qle_bool sst 28 then 40
  else if Qle_bool sst 30 then 60
  else 90.

End Spec.

(* ================================================================== *)
(** * Inputs used by the examples *)
(* ================================================================== *)

Module Examples.

Definition january : Fisheries.Date :=
  {| Fisheries.getFullYear := 2025; Fisheries.getMonth := 0;
     Fisheries.getDate := 15 |}.

Definition late_january : Fisheries.Date :=
  {| Fisheries.getFullYear := 2026; Fisheries.getMonth := 0;
     Fisheries.getDate := 31 |}.

Definition july : Fisheries.Date :=
  {| Fisheries.getFullYear := 2025; Fisheries.getMonth := 6;
     Fisheries.getDate := 15 |}.

(** A species fished from January to March. *)
Definition mackerel : Fisheries.Species :=
  {| Fisheries.id := $1; Fisheries.name := "Indian Mackerel";
     Fisheries.temp_range := ($20, $28);
     Fisheries.max_wave_height := $2.5;
     Fisheries.season_months := [$1; $2; $3];
     Fisheries.legal_status := "Open";
     Fisheries.stock_health := $80;
     Fisheries.trend := "Stable" |}.

(** A protected species with a depleted stock. *)
Definition hilsa : Fisheries.Species :=
  {| Fisheries.id := $2; Fisheries.name := "Hilsa";
     Fisheries.temp_range := ($20, $28);
     Fisheries.max_wave_height := $2.5;
     Fisheries.season_months := [$1; $2; $3];
     Fisheries.legal_status := "Protected";
     Fisheries.stock_health := $35;
     Fisheries.trend := "Critical" |}.

Definition calm : Fisheries.CurrentData :=
  {| Fisheries.sea_surface_temp := $25; Fisheries.wave_height := $1.0 |}.

Definition hot : Fisheries.CurrentData :=
  {| Fisheries.sea_surface_temp := $31; Fisheries.wave_height := $1.0 |}.

Definition stock (health catch msy : JS.num) (trend : string)
    : Risk.StockRecord :=
  {| Risk.id := $1; Risk.region := "Indian Ocean"; Risk.species := "Tuna";
     Risk.stock_health_percent := health; Risk.trend := trend;
     Risk.msy_tonnes := msy; Risk.current_catch_tonnes := catch;
     Risk.protected := false |}.

(** A stock fished at its maximum sustainable yield. *)
Definition full_use : Risk.StockRecord := stock $80 $100 $100 "Stable".

(** Rows whose [msy_tonnes] column is 0: nothing caught, and 5 tonnes
    caught. *)
Definition no_msy_no_catch : Risk.StockRecord := stock $80 $0 $0 "Stable".
Definition no_msy_catch : Risk.StockRecord := stock $80 $5 $0 "Stable".

(** Lower-casing of the letters A to Z. *)
Definition lower_char (c : Ascii.ascii) : Ascii.ascii :=
  let n := Ascii.nat_of_ascii c in
  if ((65 <=? n) && (n <=? 90))%nat then Ascii.ascii_of_nat (n + 32)
  else c.

Fixpoint ascii_lower (s : string) : string :=
  match s with
  | EmptyString => EmptyString
  | String c rest => String (lower_char c) (ascii_lower rest)
  end.

End Examples.

(* ================================================================== *)
(** * Values of the language used by the routes and the client *)
(* ================================================================== *)

Module Lang.

(** [x === y] on numbers: [NaN] is equal to nothing. *)
Definition strict_eq (x y : JS.num) : bool :=
  match x, y with
  | JS.PInf, JS.PInf | JS.NInf, JS.NInf => true
  | JS.Fin a, JS.Fin b => Qeq_bool a b
  | _, _ => false
  end.

(** [isNaN(x)] on a number. *)
Definition isNaN (x : JS.num) : bool := JS.is_nan x.

(** A value as [JSON.parse] returns it: a number of a JSON text is
    finite, and [null] is a value. *)
Inductive wire : Type :=
| WNull
| WBool (b : bool)
| WNum (q : Q)
| WStr (s : string)
| WArr (l : list wire)
| WObj (fields : list (string * wire)).

(** A number after [JSON.stringify] and [JSON.parse]: [NaN] and the
    infinities are written as [null]. *)
Definition num_wire (n : JS.num) : wire :=
  match n with
  | JS.Fin q => WNum q
  | _ => WNull
  end.

(** A number or [null]. *)
Definition opt_wire (v : option JS.num) : wire :=
  match v with
  | Some n => num_wire n
  | None => WNull
  end.

(** [ToBoolean]: [null], [false], [0] and [""] are falsy. *)
Definition truthy (w : wire) : bool :=
  match w with
  | WNull => false
  | WBool b => b
  | WNum q => negb (Qeq_bool q 0)
  | WStr s => negb (String.eqb s "")
  | WArr _ | WObj _ => true
  end.

(** [Array.isArray(w)], where [None] is [undefined]. *)
Definition isArray (w : option wire) : bool :=
  match w with
  | Some (WArr _) => true
  | _ => false
  end.

(** [w.k] on a value other than [null]: [None] for [undefined].  Of a
    key written twice in the text [JSON.parse] keeps the last value. *)
Definition prop (k : string) (w : wire) : option wire :=
  match w with
  | WObj fields =>
      option_map snd (find (fun kv => String.eqb (fst kv) k) (rev fields))
  | _ => None
  end.

(** [array.map((x, i) => f(x, i))] *)
Definition mapi {A B : Type} (f : A -> nat -> B) (l : list A) : list B :=
  map (fun it => f (snd it) (fst it)) (combine (seq 0 (List.length l)) l).

End Lang.

(* ================================================================== *)
(** * [/api/buoy]: the live forecast, merged into hourly rows *)
(* ================================================================== *)

Module Buoy.

(** An hourly array of a response of the weather service: absent
    ([None]), or its values, [null] ([None]) among them. *)
Definition series : Type := option (list (option JS.num)).

(** [marine.hourly] *)
Record MarineHourly : Type := {
  marine_wave_height : series;
  marine_sea_surface_temperature : series
}.

(** [weather.hourly] *)
Record WeatherHourly : Type := {
  time : option (list string);
  wind_speed_10m : series;
  surface_pressure : series;
  sea_surface_temperature : series
}.

(** The data of the two responses; [hourly] may be absent. *)
Record Marine : Type := { marine_hourly : option MarineHourly }.
Record Weather : Type := { weather_hourly : option WeatherHourly }.

(** The outcome of the two requests: one of them threw (with
    [err.message]), or both answered. *)
Inductive upstream : Type :=
| Failed (message : string)
| Fetched (marine : Marine) (weather : Weather).

(** A merged observation. *)
Record Row : Type := {
  timestamp : string;
  sea_surface_temp : option JS.num;
  wind_speed : option JS.num;
  air_pressure : option JS.num;
  wave_height : option JS.num
}.

(** The body of the response. *)
Inductive body : Type :=
| Err (error : string)
| Data (lat lon : JS.num) (data : list Row).

(** [a?.[i]], where [None] is [undefined] or [null]. *)
Definition at_index (a : series) (i : nat) : option JS.num :=
  match a with
  | Some values =>
      match nth_error values i with
      | Some v => v
      | None => None
      end
  | None => None
  end.

(** [x ?? y] *)
Definition orElse (x y : option JS.num) : option JS.num :=
  match x with
  | Some _ => x
  | None => y
  end.

(** [h?.field], the field of an [hourly] that may be absent. *)
Definition field {H : Type} (h : option H) (f : H -> series) : series :=
  match h with
  | Some h => f h
  | None => None
  end.

(** [weather.hourly?.time ?? []] *)
Definition times (weather : Weather) : list string :=
  match weather_hourly weather with
  | Some h => match time h with Some t => t | None => [] end
  | None => []
  end.

(** The rows of the Express route: the sea-surface temperature of the
    marine response, or else that of the forecast. *)
Definition route_rows (marine : Marine) (weather : Weather) : list Row :=
  Lang.mapi (fun t i =>
    {| timestamp := t;
       sea_surface_temp :=
         orElse (at_index (field (marine_hourly marine)
                                 marine_sea_surface_temperature) i)
                (at_index (field (weather_hourly weather)
                                 sea_surface_temperature) i);
       wind_speed := at_index (field (weather_hourly weather) wind_speed_10m) i;
       air_pressure :=
         at_index (field (weather_hourly weather) surface_pressure) i;
       wave_height :=
         at_index (field (marine_hourly marine) marine_wave_height) i |})
    (times weather).

(** The rows of the serverless handler ([api/buoy.js]): the sea-surface
    temperature of the forecast only. *)
Definition handler_rows (marine : Marine) (weather : Weather) : list Row :=
  Lang.mapi (fun t i =>
    {| timestamp := t;
       sea_surface_temp :=
         at_index (field (weather_hourly weather) sea_surface_temperature) i;
       wind_speed := at_index (field (weather_hourly weather) wind_speed_10m) i;
       air_pressure :=
         at_index (field (weather_hourly weather) surface_pressure) i;
       wave_height :=
         at_index (field (marine_hourly marine) marine_wave_height) i |})
    (times weather).

(** [app.get("/api/buoy", ...)] of the Express server; [lat] and [lon]
    are the results of [parseFloat] on the query parameters. *)
Definition route (lat lon : JS.num) (u : upstream) : nat * body :=
  if Lang.isNaN lat || Lang.isNaN lon then
    (400%nat, Err "lat and lon query params are required")
  else
    match u with
    | Failed message =>
        (502%nat, Err ("Failed to fetch live data: " ++ message))
    | Fetched marine weather =>
        (200%nat, Data lat lon (route_rows marine weather))
    end.

(** [handler] of [api/buoy.js]. *)
Definition handler (latitude longitude : JS.num) (u : upstream)
    : nat * body :=
  if Lang.isNaN latitude || Lang.isNaN longitude then
    (400%nat, Err "lat and lon query params are required")
  else
    match u with
    | Failed message =>
        (502%nat, Err ("Failed to fetch live data: " ++ message))
    | Fetched marine weather =>
        (200%nat, Data latitude longitude (handler_rows marine weather))
    end.

Definition row_wire (r : Row) : Lang.wire :=
  Lang.WObj [("timestamp", Lang.WStr (timestamp r));
             ("sea_surface_temp", Lang.opt_wire (sea_surface_temp r));
             ("wind_speed", Lang.opt_wire (wind_speed r));
             ("air_pressure", Lang.opt_wire (air_pressure r));
             ("wave_height", Lang.opt_wire (wave_height r))].

(** The body as the client parses it. *)
Definition body_wire (b : body) : Lang.wire :=
  match b with
  | Err error => Lang.WObj [("error", Lang.WStr error)]
  | Data lat lon data =>
      Lang.WObj [("lat", Lang.num_wire lat); ("lon", Lang.num_wire lon);
                 ("data", Lang.WArr (map row_wire data))]
  end.

End Buoy.

(* ================================================================== *)
(** * [/api/buoy-historical]: the archive, row by row *)
(* ================================================================== *)

Module Historical.

(** A row of the CSV file as [csv-parser] emits it: the columns by
    header, every value a string. *)
Definition csv_row : Type := list (string * string).

(** What the stream does after it is opened: it ends with the rows it
    emitted, or it emits [error]. *)
Inductive stream : Type :=
| Ended (rows : list csv_row)
| Errored.

Inductive body : Type :=
| Err (error : string)
| Rows (results : list csv_row).

(** The handler; [file] is [None] when the file does not exist. *)
Definition handler (file : option stream) : nat * body :=
  match file with
  | None => (404%nat, Err "Historical data file not found")
  | Some (Ended results) => (200%nat, Rows results)
  | Some Errored => (500%nat, Err "Failed to read CSV")
  end.

Definition row_wire (r : csv_row) : Lang.wire :=
  Lang.WObj (map (fun kv => (fst kv, Lang.WStr (snd kv))) r).

(** The body as the client parses it. *)
Definition body_wire (b : body) : Lang.wire :=
  match b with
  | Err error => Lang.WObj [("error", Lang.WStr error)]
  | Rows results => Lang.WArr (map row_wire results)
  end.

End Historical.

(* ================================================================== *)
(** * [services/api.js]: the calls of the client *)
(* ================================================================== *)

Module Api.

(** What [fetch] resolves to: the status, and the body as [res.json()]
    parses it ([None] when the body is not JSON and [res.json()]
    rejects). *)
Record Response : Type := {
  status : nat;
  parsed : option Lang.wire
}.

(** [res.ok]: the status is in the range 200 to 299. *)
Definition ok (res : Response) : bool :=
  ((200 <=? status res) && (status res <=? 299))%nat.

(** What a call throws. *)
Inductive thrown : Type :=
| ErrorOf (value : Lang.wire)
| ServerError (status : nat)
| Message (text : string)
| TypeError
| SyntaxError.

Inductive outcome : Type :=
| Returned (rows : list Lang.wire)
| Thrown (e : thrown).

(** The branch of a response that is not [ok]:
    [throw new Error(body.error || `Server error ${res.status}`)], where
    [body] is the parsed body or [{}]. *)
Definition reject (res : Response) : thrown :=
  let body :=
    match parsed res with
    | Some b => b
    | None => Lang.WObj []
    end in
  match body with
  | Lang.WNull => TypeError
  | _ =>
      match Lang.prop "error" body with
      | Some e => if Lang.truthy e then ErrorOf e else ServerError (status res)
      | None => ServerError (status res)
      end
  end.

(** [fetchBuoyData(lat, lon)], on the response of the request. *)
Definition fetchBuoyData (res : Response) : outcome :=
  if negb (ok res) then Thrown (reject res)
  else
    match parsed res with
    | None => Thrown SyntaxError
    | Some json =>
        match (if Lang.truthy json then Lang.prop "data" json else None) with
        | Some (Lang.WArr data) => Returned data
        | _ =>
            match json with
            | Lang.WArr rows => Returned rows
            | _ =>
                Thrown (Message
                  "Unexpected API response format — restart the backend server.")
            end
        end
    end.

(** [fetchHistoricalBuoyData()], on the response of the request. *)
Definition fetchHistoricalBuoyData (res : Response) : outcome :=
  if negb (ok res) then Thrown (reject res)
  else
    match parsed res with
    | None => Thrown SyntaxError
    | Some (Lang.WArr rows) => Returned rows
    | Some _ => Thrown (Message "Unexpected response from /api/buoy-historical")
    end.

(** The response that reaches the client for a status and a body. *)
Definition http (status : nat) (body : Lang.wire) : Response :=
  {| status := status; parsed := Some body |}.

End Api.

(* ================================================================== *)
(** * [App]: the year filter and the parameter toggles *)
(* ================================================================== *)

Module App.

(** Max rows to pass to charts. *)
Definition MAX_RENDER_ROWS : nat := 5000.

Section YearFilter.

(** A parsed row of the archive and its [year]. *)
Variable Row : Type.
Variable year : Row -> JS.num.

(** [histAllData.filter((r) => r.year === selectedYear)] *)
Definition yearRows (histAllData : list Row) (selectedYear : JS.num)
    : list Row :=
  filter (fun r => Lang.strict_eq (year r) selectedYear) histAllData.

(** [filteredHistorical]: the rows of the selected year, the last
    [MAX_RENDER_ROWS] of them when there are more. *)
Definition filteredHistorical
    (histAllData : list Row) (selectedYear : JS.num) : list Row :=
  let yearRows := yearRows histAllData selectedYear in
  if (MAX_RENDER_ROWS <? List.length yearRows)%nat
  then skipn (List.length yearRows - MAX_RENDER_ROWS) yearRows
  else yearRows.

End YearFilter.

(** [prev.includes(key)] on parameter keys. *)
Definition includes (prev : list string) (key : string) : bool :=
  existsb (fun k => String.eqb k key) prev.

(** The update of [toggleParam(key)] on the active parameters. *)
Definition toggleParam (prev : list string) (key : string) : list string :=
  if includes prev key then
    if (1 <? List.length prev)%nat
    then filter (fun k => negb (String.eqb k key)) prev
    else prev
  else prev ++ [key].

(** The initial value of [activeParams]. *)
Definition initialParams : list string :=
  ["sea_surface_temp"; "wind_speed"; "air_pressure"].

End App.

(* ================================================================== *)
(** * [FisheriesIntelligence]: what the dashboard derives *)
(* ================================================================== *)

Module Dashboard.

(** [getColor(s)] of the sustainability meter. *)
Definition getColor (s : JS.num) : string :=
  if (s >=? $70)%js then "#00d4ff"
  else if (s >=? $50)%js then "#fbbf24"
  else "#ff4d6d".

(** The caption under the meter. *)
Definition meterLabel (score : JS.num) : string :=
  if (score >=? $70)%js then "Excellent"
  else if (score >=? $50)%js then "Moderate"
  else "Critical Warning".

Record Evaluation : Type := {
  species : Fisheries.Species;
  result : Fisheries.Suitability
}.

(** [evaluationResults]: every call of [evaluateSuitability] reads the
    clock; [clock i] is the reading of the call on the [i]-th species. *)
Definition evaluationResults
    (clock : nat -> Fisheries.Date)
    (speciesData : list Fisheries.Species)
    (currentData : Fisheries.CurrentData) : list Evaluation :=
  Lang.mapi (fun s i =>
    {| species := s;
       result := Fisheries.evaluateSuitability (clock i) s currentData |})
    speciesData.

(** [suitableCount] *)
Definition suitableCount (evaluationResults : list Evaluation) : nat :=
  List.length
    (filter (fun r => Fisheries.suitable (result r)) evaluationResults).

(** [sustainabilityScore] and [alerts] of the component. *)
Definition sustainabilityScore
    (speciesData : list Fisheries.Species)
    (currentData : Fisheries.CurrentData) : JS.num :=
  Fisheries.calculateSustainabilityScore speciesData currentData.

Definition alerts
    (speciesData : list Fisheries.Species)
    (currentData : Fisheries.CurrentData) : list Fisheries.Alert :=
  Fisheries.generateFisheriesAlerts
    speciesData (sustainabilityScore speciesData currentData) currentData.

End Dashboard.

(* ================================================================== *)
(** * Notions used to state further properties *)
(* ================================================================== *)

Module Notions.

(** The test of the [data] callback of [/api/fisheries]:
    [!regionQuery || record.region.toLowerCase() === regionQuery]. *)
Definition selected
    (toLowerCase : string -> string) (regionQuery : option string)
    (record : Risk.StockRecord) : bool :=
  Risk.falsy regionQuery
  || match regionQuery with
     | Some q => String.eqb (toLowerCase (Risk.region record)) q
     | None => false
     end.

(** The readings that are not [null]. *)
Definition validSst (sstData : list (option JS.num)) : list JS.num :=
  flat_map (fun v => match v with Some x => [x] | None => [] end) sstData.

(** The warming that the handler adds for the region [indian ocean]. *)
Definition warming (regionQuery : option string) : Q :=
  match regionQuery with
  | Some q => if String.eqb q "indian ocean" then 2.5 else 0
  | None => 0
  end.


(** The species [s] with its [stock_health] replaced. *)
Definition with_health (s : Fisheries.Species) (h : JS.num)
    : Fisheries.Species :=
  {| Fisheries.id := Fisheries.id s;
     Fisheries.name := Fisheries.name s;
     Fisheries.temp_range := Fisheries.temp_range s;
     Fisheries.max_wave_height := Fisheries.max_wave_height s;
     Fisheries.season_months := Fisheries.season_months s;
     Fisheries.legal_status := Fisheries.legal_status s;
     Fisheries.stock_health := h;
     Fisheries.trend := Fisheries.trend s |}.

(** The list with the stock health of its [i]-th species replaced. *)
Fixpoint update_health (i : nat) (h : JS.num) (l : list Fisheries.Species)
    : list Fisheries.Species :=
  match l, i with
  | [], _ => []
  | s :: l, O => with_health s h :: l
  | s :: l, S i => s :: update_health i h l
  end.

(** [s'] is [s] but for its stock health, which is not below. *)
Definition health_raised (s s' : Fisheries.Species) : Prop :=
  s' = with_health s (Fisheries.stock_health s')
  /\ JS.nondecr (Fisheries.stock_health s) (Fisheries.stock_health s').


(** The response of a buoy handler as it reaches the client. *)
Definition buoy_response (r : nat * Buoy.body) : Api.Response :=
  Api.http (fst r) (Buoy.body_wire (snd r)).

(** The response of the archive handler as it reaches the client. *)
Definition historical_response (r : nat * Historical.body) : Api.Response :=
  Api.http (fst r) (Historical.body_wire (snd r)).

(** The sea-surface temperatures of the marine response. *)
Definition marine_sst (marine : Buoy.Marine) : Buoy.series :=
  Buoy.field (Buoy.marine_hourly marine) Buoy.marine_sea_surface_temperature.

(** The sea-surface temperatures of the forecast. *)
Definition forecast_sst (weather : Buoy.Weather) : Buoy.series :=
  Buoy.field (Buoy.weather_hourly weather) Buoy.sea_surface_temperature.

(** The number of the elements of [l] that satisfy [p]. *)
Definition count {A : Type} (p : A -> bool) (l : list A) : nat :=
  List.length (filter p l).

End Notions.

(* ================================================================== *)
(** * Further inputs of the examples *)
(* ================================================================== *)

Module Samples.

Definition forecast : Buoy.Weather :=
  {| Buoy.weather_hourly := Some
       {| Buoy.time := Some ["2025-01-15T00:00"; "2025-01-15T01:00";
                             "2025-01-15T02:00"];
          Buoy.wind_speed_10m := Some [Some $12; None];
          Buoy.surface_pressure := None;
          Buoy.sea_surface_temperature := Some [Some $27; Some $27.5;
                                                Some $28] |} |}.

Definition sea : Buoy.Marine :=
  {| Buoy.marine_hourly := Some
       {| Buoy.marine_wave_height := Some [Some $1.5; Some $2];
          Buoy.marine_sea_surface_temperature :=
            Some [Some $26; None] |} |}.

(** A marine response without sea-surface temperatures. *)
Definition sea_without_sst : Buoy.Marine :=
  {| Buoy.marine_hourly := Some
       {| Buoy.marine_wave_height := Some [Some $1.5; Some $2];
          Buoy.marine_sea_surface_temperature := None |} |}.

Definition archive : list Historical.csv_row :=
  [[("YY", "2023"); ("WTMP", "14.2")]; [("YY", "2023"); ("WTMP", "MM")]].

(** The second row of the merged forecast of [sea] and [forecast]. *)
Definition second_row : Buoy.Row :=
  {| Buoy.timestamp := "2025-01-15T01:00";
     Buoy.sea_surface_temp := Some $27.5;
     Buoy.wind_speed := None;
     Buoy.air_pressure := None;
     Buoy.wave_height := Some $2 |}.

End Samples.

(* ================================================================== *)
(** * Double precision *)
(* ================================================================== *)

(** A JavaScript number is an IEEE 754 double: every arithmetic operation
    returns the double nearest to its exact result.  [F64] rounds the
    exact operations of [JS]; the comparisons, [Math.min], [Math.max] and
    [Math.round] are exact on doubles and are those of [JS]. *)
Module F64.

(** [2^z] *)
Definition pow2 (z : Z) : Q := Qpower 2 z.

(** The integer part of the base-2 logarithm of a positive rational. *)
Definition log2 (q : Q) : Z :=
  let k := (Z.log2 (Qnum q) - Z.log2 (Zpos (Qden q)))%Z in
  if Qle_bool (pow2 k) q then k else (k - 1)%Z.

(** The nearest integer, a half going to the even neighbour. *)
Definition nearest_even (x : Q) : Z :=
  let f := Qfloor x in
  match ((x - inject_Z f) ?= (1 # 2))%Q with
  | Lt => f
  | Gt => (f + 1)%Z
  | Eq => if Z.even f then f else (f + 1)%Z
  end.

(** The exponent of the unit in the last place of the doubles around a
    positive [q]: 53 significant bits, and the spacing [2^-1074] of the
    subnormal numbers at the bottom of the range. *)
Definition ulp_exponent (q : Q) : Z := Z.max (log2 q - 52) (-1074).

(** The multiple of the unit in the last place nearest to a positive
    [q]. *)
Definition round_val (q : Q) : Q :=
  let u := ulp_exponent q in
  inject_Z (nearest_even (q / pow2 u)) * pow2 u.

Definition round_pos (q : Q) : JS.num :=
  let v := round_val q in
  if Qle_bool (pow2 1024) v then JS.PInf else JS.Fin (Qred v).

(** The double nearest to the real number [q], ties to even; past the
    largest double it is an infinity.  The two zeros are identified. *)
Definition rnd (q : Q) : JS.num :=
  match q ?= 0 with
  | Eq => JS.Fin 0
  | Gt => round_pos q
  | Lt => JS.neg (round_pos (- q))
  end.

(** The result of an operation whose exact value is [x]. *)
Definition rounded (x : JS.num) : JS.num :=
  match x with
  | JS.Fin q => rnd q
  | _ => x
  end.

(** [x + y], [x - y], [x * y] and [x / y]: the exact result, rounded
    once. *)
Definition add (x y : JS.num) : JS.num := rounded (JS.add x y).
Definition sub (x y : JS.num) : JS.num := rounded (JS.sub x y).
Definition mul (x y : JS.num) : JS.num := rounded (JS.mul x y).
Definition div (x y : JS.num) : JS.num := rounded (JS.div x y).

(** A decimal literal of the source: the double nearest to it. *)
Definition lit (q : Q) : JS.num := rnd q.

(** An array of the language has fewer than [2^32] elements. *)
Definition array_length {A : Type} (l : list A) : Prop :=
  (Z.of_nat (List.length l) < 2 ^ 32)%Z.

(** [x] lies between [lo] and [hi]; none of the three is [NaN]. *)
Definition between (lo hi x : JS.num) : Prop :=
  JS.le lo x = true /\ JS.le x hi = true.

End F64.

Declare Scope f64_scope.
Delimit Scope f64_scope with f64.

Arguments F64.add (x y)%_f64_scope.
Arguments F64.sub (x y)%_f64_scope.
Arguments F64.mul (x y)%_f64_scope.
Arguments F64.div (x y)%_f64_scope.

Infix "+" := F64.add : f64_scope.
Infix "-" := F64.sub : f64_scope.
Infix "*" := F64.mul : f64_scope.
Infix "/" := F64.div : f64_scope.

(* ================================================================== *)
(** * [/api/fisheries] in double precision *)
(* ================================================================== *)

(** The arithmetic of the risk scorer, operation by operation as the
    [end] callback writes it.  The literals [0.5], [0.25], [2.5], [28.5]
    and the integers are doubles; [0.15], [0.10], [0.35] and [0.05] are
    not, and stand for the doubles nearest to them. *)
Module Risk64.

Definition avgStockHealth (results : list Risk.StockRecord) : JS.num :=
  (fold_left (fun sum s => sum + Risk.stock_health_percent s) results $0
   / Risk.len results)%f64.

Definition avgMSY (results : list Risk.StockRecord) : JS.num :=
  (fold_left
     (fun sum s =>
        sum + Risk.current_catch_tonnes s / Risk.msy_tonnes s * $100)
     results $0
   / Risk.len results)%f64.

Definition msyPressureScore (results : list Risk.StockRecord) : JS.num :=
  JS.min (avgMSY results) $120.

Definition decliningPercent (results : list Risk.StockRecord) : JS.num :=
  (JS.of_nat (Risk.decliningCount results) / Risk.len results * $100)%f64.

Definition sustainabilityIndex
    (results : list Risk.StockRecord) (sst : JS.num) : JS.num :=
  (avgStockHealth results * $0.5
   + ($100 - msyPressureScore results) * $0.25
   + ($100 - decliningPercent results) * F64.lit 0.15
   + ($100 - Risk.climateScore sst) * F64.lit 0.10)%f64.

Definition finalIndex
    (results : list Risk.StockRecord) (sst : JS.num) : JS.num :=
  JS.max $0 (JS.min $100 (JS.round (sustainabilityIndex results sst))).

Definition collapseRisk
    (results : list Risk.StockRecord) (sst : JS.num) : JS.num :=
  (msyPressureScore results * F64.lit 0.35
   + decliningPercent results * $0.25
   + ($100 - avgStockHealth results) * $0.25
   + Risk.climateScore sst * F64.lit 0.15)%f64.

Definition finalCollapseRisk
    (results : list Risk.StockRecord) (sst : JS.num) : JS.num :=
  JS.max $0 (JS.min $100 (JS.round (collapseRisk results sst))).

(** [finalIndex - (finalCollapseRisk * 0.05)] *)
Definition projected (finalIndex finalCollapseRisk : JS.num) : JS.num :=
  (finalIndex - finalCollapseRisk * F64.lit 0.05)%f64.

Definition projectedIndex
    (results : list Risk.StockRecord) (sst : JS.num) : JS.num :=
  projected (finalIndex results sst) (finalCollapseRisk results sst).

(** The [end] callback of the CSV stream. *)
Definition scoreRisk
    (regionQuery : option string) (results : list Risk.StockRecord)
    (sst : JS.num) : json :=
  if (List.length results =? 0)%nat then JObj [("count", JNum $0)]
  else
    let finalIndex := finalIndex results sst in
    let finalCollapseRisk := finalCollapseRisk results sst in
    let projectedIndex := projectedIndex results sst in
    JObj
      [("region",
        JStr (match regionQuery with
              | Some q => if Risk.falsy regionQuery then "All Regions" else q
              | None => "All Regions"
              end));
       ("sustainability_index", JNum finalIndex);
       ("sustainability_level", JStr (Risk.sustLevel finalIndex));
       ("collapse_risk",
        JObj [("score", JNum finalCollapseRisk);
              ("level", JStr (Risk.riskLevel finalCollapseRisk))]);
       ("climate_stress",
        JObj [("sst", JNum (F64.rounded (JS.toFixed1 sst)));
              ("score", JNum (Risk.climateScore sst))]);
       ("projection",
        JObj [("index_6_month", JNum (JS.max $0 (JS.round projectedIndex)));
              ("change",
               JNum (JS.round (projectedIndex - finalIndex)%f64))]);
       ("stats",
        JObj [("count", JNum (Risk.len results));
              ("avg_stock_health", JNum (JS.round (avgStockHealth results)));
              ("msy_utilization", JNum (JS.round (avgMSY results)));
              ("declining_percent",
               JNum (JS.round (decliningPercent results)));
              ("critical_species_count",
               JNum (JS.of_nat (List.length
                 (filter
                    (fun r => (Risk.stock_health_percent r <? $40)%js)
                    results))))]);
       ("data", JArr (map Risk.record_json results))].

(** The climate signal: the mean of the readings that are not [null],
    accumulated in array order, and 2.5 more for the region
    [indian ocean]. *)
Definition sst_avg
    (regionQuery : option string)
    (sstRes : option (list (option JS.num))) : JS.num :=
  match sstRes with
  | None => $28.5
  | Some sstData =>
      let validSst :=
        flat_map (fun v => match v with Some x => [x] | None => [] end)
                 sstData in
      let sst_avg :=
        if (0 <? List.length validSst)%nat
        then (fold_left F64.add validSst $0
              / JS.of_nat (List.length validSst))%f64
        else $28.5 in
      match regionQuery with
      | Some q =>
          if String.eqb q "indian ocean" then (sst_avg + $2.5)%f64
          else sst_avg
      | None => sst_avg
      end
  end.

(** The catch of the record is a number that is not negative. *)
Definition catch_not_negative (r : Risk.StockRecord) : Prop :=
  ($0 <=? Risk.current_catch_tonnes r)%js = true.

End Risk64.

(* ================================================================== *)
(** * [calculateSustainabilityScore] in double precision *)
(* ================================================================== *)

Module Fisheries64.

(** [calculateSustainabilityScore(speciesList, currentData)]; [0.4] and
    [0.2] stand for the doubles nearest to them. *)
Definition calculateSustainabilityScore
    (speciesList : list Fisheries.Species)
    (currentData : Fisheries.CurrentData) : JS.num :=
  if (List.length speciesList =? 0)%nat then $0
  else
    let len := JS.of_nat (List.length speciesList) in
    let avgStockHealth :=
      (fold_left (fun acc s => acc + Fisheries.stock_health s)
                 speciesList $0
       / len)%f64 in
    let suitableTempCount :=
      List.length (filter (fun s =>
        let temp := Fisheries.sea_surface_temp currentData in
        (temp >=? fst (Fisheries.temp_range s))%js
        && (temp <=? snd (Fisheries.temp_range s))%js) speciesList) in
    let tempScore := (JS.of_nat suitableTempCount / len * $100)%f64 in
    let safeWaveCount :=
      List.length (filter (fun s =>
        (Fisheries.wave_height currentData
         <=? Fisheries.max_wave_height s)%js)
        speciesList) in
    let waveScore := (JS.of_nat safeWaveCount / len * $100)%f64 in
    let totalScore :=
      (avgStockHealth * F64.lit 0.4 + tempScore * F64.lit 0.4
       + waveScore * F64.lit 0.2)%f64 in
    JS.round totalScore.

End Fisheries64.

(* ================================================================== *)
(** * [utils/anomaly]: descriptive statistics of an observation series *)
(* ================================================================== *)

Module Anomaly.

(** Modelled from the spec: an observation, which is a timestamp and, per
    parameter key, a float or the missing marker ([None]); a key that is
    absent is missing too. *)
Record Observation : Type := {
  timestamp : Z;
  parameter_values : list (string * option JS.num)
}.

(** Modelled from the spec: the statistics of one parameter. *)
Record ParameterStats : Type := {
  mean : JS.num;
  stdDev : JS.num;
  min : JS.num;
  max : JS.num;
  anomalyCount : nat;
  moderateCount : nat;
  extremeCount : nat
}.

(** Modelled from the spec: the value of a parameter in an observation;
    [NaN] is the non-numeric marker and counts as missing. *)
Definition value_of (key : string) (o : Observation) : option JS.num :=
  match find (fun kv => String.eqb (fst kv) key) (parameter_values o) with
  | Some (_, Some x) => if JS.is_nan x then None else Some x
  | _ => None
  end.

(** Modelled from the spec: the valid values of a series for a key, in
    series order. *)
Definition valid_values
    (series : list Observation) (key : string) : list JS.num :=
  flat_map (fun o => match value_of key o with
                     | Some x => [x]
                     | None => []
                     end) series.

(** Modelled from the spec: the mean of the valid values, their sum
    accumulated in series order and divided by their number. *)
Definition mean_of (l : list JS.num) : JS.num :=
  (fold_left F64.add l $0 / JS.of_nat (List.length l))%f64.

(** Modelled from the spec: the population variance,
    [mean((x - mean)^2)]. *)
Definition variance (l : list JS.num) : JS.num :=
  mean_of (map (fun x => ((x - mean_of l) * (x - mean_of l))%f64) l).

(** Modelled from the spec: the least and the greatest valid value. *)
Definition min_of (x : JS.num) (l : list JS.num) : JS.num :=
  fold_left JS.min l x.
Definition max_of (x : JS.num) (l : list JS.num) : JS.num :=
  fold_left JS.max l x.

(** [Math.abs(x)] *)
Definition abs (x : JS.num) : JS.num :=
  match x with
  | JS.Fin q => JS.Fin (Qabs q)
  | JS.NInf => JS.PInf
  | _ => x
  end.

(** Modelled from the spec: [z = (x - mean) / stdDev], 0 when
    [stdDev == 0]; a value is moderate when [2 <= |z| < 3] and extreme
    when [|z| >= 3]. *)
Definition zscore (m sd x : JS.num) : JS.num :=
  match sd with
  | JS.Fin q => if Qeq_bool q 0 then $0 else ((x - m) / sd)%f64
  | _ => ((x - m) / sd)%f64
  end.

Definition is_moderate (z : JS.num) : bool :=
  ($2 <=? abs z)%js && (abs z <? $3)%js.

Definition is_extreme (z : JS.num) : bool := ($3 <=? abs z)%js.

(** Modelled from the spec: the result when no value is valid. *)
Definition zero_stats : ParameterStats :=
  {| mean := $0; stdDev := $0; min := $0; max := $0;
     anomalyCount := 0; moderateCount := 0; extremeCount := 0 |}.

Section Stats.

(** The square root ([Math.sqrt]) that the standard deviation takes,
    taken as given. *)
Variable sqrt : JS.num -> JS.num.

(** Modelled from the spec: [computeStats] of [utils/anomaly], which is
    imported by the chart components and is not part of the sources at
    hand.  Two passes over the valid values: the first for the mean and
    the population standard deviation, the second classifies each value
    by its z-score; with no valid value every statistic is zero. *)
Definition computeStats
    (series : list Observation) (key : string) : ParameterStats :=
  match valid_values series key with
  | [] => zero_stats
  | x :: rest =>
      let values := x :: rest in
      let m := mean_of values in
      let sd := sqrt (variance values) in
      let moderate :=
        List.length (filter (fun v => is_moderate (zscore m sd v)) values) in
      let extreme :=
        List.length (filter (fun v => is_extreme (zscore m sd v)) values) in
      {| mean := m;
         stdDev := sd;
         min := min_of x rest;
         max := max_of x rest;
         anomalyCount := (moderate + extreme)%nat;
         moderateCount := moderate;
         extremeCount := extreme |}
  end.

End Stats.

End Anomaly.

(* ================================================================== *)
(** * The formulas of the specification, in double precision *)
(* ================================================================== *)

(** The formulas of the specification on floats: each operation is a
    double-precision operation, a mean is the sum accumulated in list
    order over the number of elements, a percentage is the ratio of the
    counts times 100. *)
Module Spec64.

Definition mean (l : list JS.num) : JS.num :=
  (fold_left F64.add l $0 / JS.of_nat (List.length l))%f64.

Definition percentage {A : Type} (p : A -> bool) (l : list A) : JS.num :=
  (JS.of_nat (List.length (filter p l)) / JS.of_nat (List.length l)
   * $100)%f64.

(** [msyUtilization[i] = current_catch_tonnes[i] / msy_tonnes[i] * 100] *)
Definition msyUtilization (s : Risk.StockRecord) : JS.num :=
  (Risk.current_catch_tonnes s / Risk.msy_tonnes s * $100)%f64.

(** The sustainability index of the risk framework:
    [round(clamp(avgStockHealth*0.5 + (100-msyPressureScore)*0.25
                 + (100-decliningPercent)*0.15
                 + (100-climateScore)*0.10, 0, 100))]. *)
Definition sustainabilityIndex
    (records : list Risk.StockRecord) (sst : JS.num) : JS.num :=
  let avgStockHealth := mean (map Risk.stock_health_percent records) in
  let avgMSY := mean (map msyUtilization records) in
  let msyPressureScore := JS.min avgMSY $120 in
  let decliningPercent := percentage Spec.declining records in
  let climateScore := Risk.climateScore sst in
  JS.round
    (Spec.clamp (avgStockHealth * $0.5
                 + ($100 - msyPressureScore) * $0.25
                 + ($100 - decliningPercent) * F64.lit 0.15
                 + ($100 - climateScore) * F64.lit 0.10)%f64 $0 $100).

(** The collapse risk:
    [round(clamp(msyPressureScore*0.35 + decliningPercent*0.25
                 + (100-avgStockHealth)*0.25 + climateScore*0.15,
                 0, 100))]. *)
Definition collapseRisk
    (records : list Risk.StockRecord) (sst : JS.num) : JS.num :=
  let avgStockHealth := mean (map Risk.stock_health_percent records) in
  let avgMSY := mean (map msyUtilization records) in
  let msyPressureScore := JS.min avgMSY $120 in
  let decliningPercent := percentage Spec.declining records in
  let climateScore := Risk.climateScore sst in
  JS.round
    (Spec.clamp (msyPressureScore * F64.lit 0.35
                 + decliningPercent * $0.25
                 + ($100 - avgStockHealth) * $0.25
                 + climateScore * F64.lit 0.15)%f64 $0 $100).

(** The score of the sustainability scorer:
    [round(avgStockHealth*0.4 + tempScore*0.4 + waveScore*0.2)]. *)
Definition sustainabilityScore
    (speciesList : list Fisheries.Species) (cd : Fisheries.CurrentData)
    : JS.num :=
  let avgStockHealth := mean (map Fisheries.stock_health speciesList) in
  let tempScore := percentage (Spec.temp_in_range cd) speciesList in
  let waveScore := percentage (Spec.wave_safe cd) speciesList in
  JS.round (avgStockHealth * F64.lit 0.4 + tempScore * F64.lit 0.4
            + waveScore * F64.lit 0.2)%f64.

End Spec64.

(* ================================================================== *)
(** * Inputs of the examples in double precision *)
(* ================================================================== *)

Module Examples64.

(** Two catches that differ in sign, each far beyond its tiny [msy]. *)
Definition overfished : Risk.StockRecord :=
  Examples.stock $80 (F64.lit 1e308) (F64.lit 1e-10) "Stable".
Definition restocked : Risk.StockRecord :=
  Examples.stock $80 (JS.neg (F64.lit 1e308)) (F64.lit 1e-10) "Stable".

(** A species that the calm sea of the examples suits, or that it does
    not suit, with the given stock health. *)
Definition stocked (suited : bool) (health : Z) : Fisheries.Species :=
  {| Fisheries.id := $1; Fisheries.name := "Sardine";
     Fisheries.temp_range := if suited then ($20, $28) else ($30, $32);
     Fisheries.max_wave_height := if suited then $2.5 else $0.5;
     Fisheries.season_months := [];
     Fisheries.legal_status := "Open";
     Fisheries.stock_health := JS.of_Z health;
     Fisheries.trend := "Stable" |}.

Definition twelve_species : list Fisheries.Species :=
  map (stocked true) [14; 57; 97; 65]%Z
  ++ map (stocked false) [51; 6; 97; 96; 69; 26; 57; 70]%Z.

Definition reading (v : option JS.num) : Anomaly.Observation :=
  {| Anomaly.timestamp := 0; Anomaly.parameter_values := [("WTMP", v)] |}.


(** Four readings of 10 and one of 50, with a gap. *)
Definition outlier_series : list Anomaly.Observation :=
  map reading [Some $10; None; Some $10; Some $10; Some $10; Some $50].

(** The square root of a perfect square (the integer square root of the
    integer part otherwise). *)
Definition isqrt (x : JS.num) : JS.num :=
  match x with
  | JS.Fin q => JS.of_Z (Z.sqrt (Qfloor q))
  | _ => x
  end.

End Examples64.

(* ================================================================== *)
(** * Facts about JavaScript numbers *)
(* ================================================================== *)

Lemma Qle_bool_false (a b : Q) : Qle_bool a b = false -> b < a.
Proof.
  intros H. apply Qnot_le_lt. intros Hle.
  apply Qle_bool_iff in Hle. congruence.
Qed.

Lemma Qltb_true (a b : Q) : JS.Qltb a b = true <-> a < b.
Proof.
  unfold JS.Qltb. split.
  - intros H. apply negb_true_iff in H. now apply Qle_bool_false.
  - intros H. apply negb_true_iff.
    destruct (Qle_bool b a) eqn:E; [|reflexivity].
    apply Qle_bool_iff in E. lra.
Qed.

Lemma Qltb_false (a b : Q) : JS.Qltb a b = false <-> b <= a.
Proof.
  unfold JS.Qltb. rewrite negb_false_iff. apply Qle_bool_iff.
Qed.

(** Turn the boolean tests on rationals in the context into
    propositions that [lra] reads. *)
Ltac qprop :=
  repeat match goal with
  | H : Qle_bool _ _ = true |- _ => apply Qle_bool_iff in H
  | H : Qle_bool _ _ = false |- _ => apply Qle_bool_false in H
  | H : JS.Qltb _ _ = true |- _ => apply Qltb_true in H
  | H : JS.Qltb _ _ = false |- _ => apply Qltb_false in H
  | H : Qeq_bool _ _ = true |- _ => apply Qeq_bool_iff in H
  | H : Qeq_bool _ _ = false |- _ => apply Qeq_bool_neq in H
  end.

(** Decide the boolean tests on rationals that occur in the goal. *)
Ltac qcases :=
  repeat match goal with
  | |- context [Qle_bool ?a ?b] =>
      let E := fresh "E" in destruct (Qle_bool a b) eqn:E
  | |- context [JS.Qltb ?a ?b] =>
      let E := fresh "E" in destruct (JS.Qltb a b) eqn:E
  | |- context [Qeq_bool ?a ?b] =>
      let E := fresh "E" in destruct (Qeq_bool a b) eqn:E
  end.

(* ================================================================== *)
(** * The climate-stress score *)
(* ================================================================== *)

Section ClimateScore.

Import Risk.

Lemma climateScore_finite (q : Q) :
  climateScore ($q) = $(Spec.climate_band q).
Proof.
  unfold climateScore, Spec.climate_band, JS.gt, JS.lt.
  qcases; qprop; try reflexivity; exfalso; lra.
Qed.

Example climateScore_at_26 : climateScore $26 = $20.
Proof. reflexivity. Qed.

Example climateScore_at_28 : climateScore $28 = $40.
Proof. reflexivity. Qed.

Example climateScore_at_30 : climateScore $30 = $60.
Proof. reflexivity. Qed.

Example climateScore_above_30 : climateScore $30.1 = $90.
Proof. reflexivity. Qed.

(** No comparison holds of [NaN]: the score keeps its initial value. *)
Example climateScore_of_NaN : climateScore JS.NaN = $20.
Proof. reflexivity. Qed.

(** C3. The climate-stress score of the risk scorer is the step function
    of the sea-surface temperature: 20 up to and including 26, 40 above
    26 up to and including 28, 60 above 28 up to and including 30, and 90
    above 30; it is the score the response reports. *)
Theorem climateScore_bands (sst : JS.num) :
  ((sst <=? $26)%js = true -> climateScore sst = $20) /\
  ((sst >? $26)%js = true -> (sst <=? $28)%js = true ->
     climateScore sst = $40) /\
  ((sst >? $28)%js = true -> (sst <=? $30)%js = true ->
     climateScore sst = $60) /\
  ((sst >? $30)%js = true -> climateScore sst = $90) /\
  (forall regionQuery results, results <> [] ->
     get "climate_stress" (scoreRisk regionQuery results sst) =
     Some (JObj [("sst", JNum (JS.toFixed1 sst));
                 ("score", JNum (climateScore sst))])).
Proof.
  repeat split.
  - destruct sst as [| | |q]; simpl; try discriminate; try reflexivity.
    intros H. rewrite climateScore_finite. unfold Spec.climate_band.
    now rewrite H.
  - destruct sst as [| | |q]; simpl; try discriminate.
    intros H1 H2. rewrite climateScore_finite. unfold Spec.climate_band.
    rewrite H2. qcases; qprop; try reflexivity; exfalso; lra.
  - destruct sst as [| | |q]; simpl; try discriminate.
    intros H1 H2. rewrite climateScore_finite. unfold Spec.climate_band.
    rewrite H2. qcases; qprop; try reflexivity; exfalso; lra.
  - destruct sst as [| | |q]; simpl; try discriminate; try reflexivity.
    intros H1. rewrite climateScore_finite. unfold Spec.climate_band.
    qcases; qprop; try reflexivity; exfalso; lra.
  - intros regionQuery [|r results] Hne; [congruence|]. reflexivity.
Qed.

Lemma climateScore_bands_witness :
  climateScore $28 = $40 /\ climateScore $30 = $60.
Proof.
  split.
  - apply (proj1 (proj2 (climateScore_bands $28))); reflexivity.
  - apply (proj1 (proj2 (proj2 (climateScore_bands $30)))); reflexivity.
Defined.

End ClimateScore.

(* ================================================================== *)
(** * Suitability of a species *)
(* ================================================================== *)

Section Suitability.

Import Fisheries.

Example open_species_in_season :
  evaluateSuitability Examples.january Examples.mackerel Examples.calm =
  {| suitable := true; reason := optimal_reason |}.
Proof. reflexivity. Qed.

(** C2, as the code has it: the same species and the same conditions
    are suitable in January and unsuitable in July. *)
Lemma evaluateSuitability_depends_on_clock :
  suitable (evaluateSuitability Examples.january Examples.mackerel
                                Examples.calm) = true /\
  suitable (evaluateSuitability Examples.july Examples.mackerel
                                Examples.calm) = false /\
  ~ (forall (now1 now2 : Date) (sp : Species) (cd : CurrentData),
       evaluateSuitability now1 sp cd = evaluateSuitability now2 sp cd).
Proof.
  split; [reflexivity|]. split; [reflexivity|].
  intros H.
  specialize (H Examples.january Examples.july Examples.mackerel
                Examples.calm).
  discriminate H.
Qed.

(** C2, amended. The result of [evaluateSuitability] is determined by
    its two arguments and the month of the wall clock: two calls with
    identical arguments made in the same month return identical results,
    whatever else the clock reads. *)
Theorem evaluateSuitability_month_only
    (now1 now2 : Date) (sp : Species) (cd : CurrentData) :
  getMonth now1 = getMonth now2 ->
  evaluateSuitability now1 sp cd = evaluateSuitability now2 sp cd.
Proof.
  intros Hmonth. unfold evaluateSuitability, currentMonth.
  now rewrite Hmonth.
Qed.

Lemma evaluateSuitability_month_only_witness :
  evaluateSuitability Examples.january Examples.mackerel Examples.calm =
  evaluateSuitability Examples.late_january Examples.mackerel Examples.calm.
Proof.
  apply (evaluateSuitability_month_only
           Examples.january Examples.late_january); reflexivity.
Defined.

(** C7. The rules are checked in the order protection, season,
    temperature, waves, and the first one that applies decides the
    result; a protected species outside its temperature range is
    reported as protected, not as too warm or too cold. *)
Theorem evaluateSuitability_priority
    (now : Date) (sp : Species) (cd : CurrentData) :
  let r := evaluateSuitability now sp cd in
  (legal_status sp = "Protected" ->
     r = {| suitable := false; reason := protected_reason |}) /\
  (legal_status sp <> "Protected" ->
   includes (season_months sp) (currentMonth now) = false ->
     r = {| suitable := false; reason := season_reason |}) /\
  (legal_status sp <> "Protected" ->
   includes (season_months sp) (currentMonth now) = true ->
   temp_outside sp cd = true ->
     r = {| suitable := false;
            reason := temp_reason (sea_surface_temp cd)
                        (fst (temp_range sp)) (snd (temp_range sp)) |}) /\
  (legal_status sp <> "Protected" ->
   includes (season_months sp) (currentMonth now) = true ->
   temp_outside sp cd = false ->
   (wave_height cd >? max_wave_height sp)%js = true ->
     r = {| suitable := false;
            reason := wave_reason (wave_height cd) (max_wave_height sp) |}) /\
  (legal_status sp <> "Protected" ->
   includes (season_months sp) (currentMonth now) = true ->
   temp_outside sp cd = false ->
   (wave_height cd >? max_wave_height sp)%js = false ->
     r = {| suitable := true; reason := optimal_reason |}) /\
  (legal_status sp = "Protected" -> temp_outside sp cd = true ->
     suitable r = false /\
     reason r = protected_reason /\
     reason r <> temp_reason (sea_surface_temp cd)
                   (fst (temp_range sp)) (snd (temp_range sp))).
Proof.
  unfold evaluateSuitability, temp_outside, currentMonth. cbv zeta.
  destruct (String.eqb_spec (legal_status sp) "Protected") as [Hp|Hp].
  - repeat split; try reflexivity; try (intros; congruence).
    discriminate.
  - destruct (includes (season_months sp) _) eqn:Hs; cbn [negb];
      [|repeat split; intros; try reflexivity; congruence].
    destruct (_ || _) eqn:Ht;
      [repeat split; intros; try reflexivity; congruence|].
    destruct (wave_height cd >? max_wave_height sp)%js eqn:Hw;
      repeat split; intros; try reflexivity; congruence.
Qed.

Lemma evaluateSuitability_priority_witness :
  reason (evaluateSuitability Examples.january Examples.hilsa Examples.hot)
  = protected_reason.
Proof.
  apply (evaluateSuitability_priority
           Examples.january Examples.hilsa Examples.hot); reflexivity.
Defined.

End Suitability.

(* ================================================================== *)
(** * Alerts *)
(* ================================================================== *)

Section Alerts.

Import Fisheries.

(** One pass of the loop appends the alerts of the species. *)
Lemma species_alerts_app (alerts : list Alert) (s : Species) :
  species_alerts alerts s = alerts ++ Spec.alerts_of_species s.
Proof.
  unfold species_alerts, Spec.alerts_of_species, push.
  destruct (stock_health s <? $50)%js;
    destruct (String.eqb (legal_status s) "Protected"); cbn [app];
    rewrite ?app_nil_r, <- ?app_assoc; reflexivity.
Qed.

Lemma forEach_species_alerts (l : list Species) (alerts : list Alert) :
  fold_left species_alerts l alerts
  = alerts ++ flat_map Spec.alerts_of_species l.
Proof.
  revert alerts.
  induction l as [|s l IH]; intros alerts; cbn [fold_left flat_map].
  - now rewrite app_nil_r.
  - now rewrite IH, species_alerts_app, app_assoc.
Qed.

Example alerts_of_a_rough_day :
  map type (generateFisheriesAlerts
              [Examples.mackerel; Examples.hilsa] $55
              {| sea_surface_temp := $25; wave_height := $3.5 |})
  = ["danger"; "warning"; "warning"; "info"].
Proof. reflexivity. Qed.

(** Both alerts of a species fire together, and a species listed twice
    is reported twice. *)
Example both_alerts_of_one_species :
  Spec.alerts_of_species Examples.hilsa
  = [biological_alert Examples.hilsa; conservation_alert Examples.hilsa].
Proof. reflexivity. Qed.

Example alerts_are_not_merged :
  generateFisheriesAlerts [Examples.hilsa; Examples.hilsa] $80 Examples.calm
  = [biological_alert Examples.hilsa; conservation_alert Examples.hilsa;
     biological_alert Examples.hilsa; conservation_alert Examples.hilsa].
Proof. reflexivity. Qed.

(** C9. The alerts are, in this order: the rough-sea danger alert when
    the wave height is above 3, the low-index warning when the score is
    below 60, and then for each species in list order its stock warning
    (stock health below 50) followed by its protection notice (status
    Protected); every alert whose condition holds is in the list, once
    per condition that holds. *)
Theorem generateFisheriesAlerts_order
    (speciesList : list Species) (score : JS.num) (cd : CurrentData) :
  generateFisheriesAlerts speciesList score cd =
    (if (wave_height cd >? $3)%js then [rough_sea_alert] else [])
    ++ (if (score <? $60)%js then [low_index_alert] else [])
    ++ flat_map Spec.alerts_of_species speciesList.
Proof.
  unfold generateFisheriesAlerts, push.
  rewrite forEach_species_alerts.
  destruct (wave_height cd >? $3)%js; destruct (score <? $60)%js;
    reflexivity.
Qed.

End Alerts.

(* ================================================================== *)
(** * The risk scorer on degenerate inputs *)
(* ================================================================== *)

Section Degenerate.

Import Risk.

Lemma scoreRisk_nil (regionQuery : option string) (sst : JS.num) :
  scoreRisk regionQuery [] sst = JObj [("count", JNum $0)].
Proof. reflexivity. Qed.

(** With a record, the response carries the scoring fields. *)
Example scoreRisk_one_record :
  get "sustainability_index" (scoreRisk None [Examples.full_use] $27)
  = Some (JNum $61) /\
  get "collapse_risk" (scoreRisk None [Examples.full_use] $27)
  = Some (JObj [("score", JNum $46); ("level", JStr "Moderate")]).
Proof. split; reflexivity. Qed.

(** C6. When no record passes the region filter, the handler answers
    with status 200 and the body [{count: 0}]: the sustainability index,
    the collapse risk, the climate stress, the projection and the
    statistics are absent from it. *)
Theorem fisheries_no_matching_record
    (toLowerCase : string -> string) (region : option string)
    (sstRes : option (list (option JS.num))) (rows : list StockRecord) :
  fold_left (on_data toLowerCase (regionQuery toLowerCase region)) rows []
    = [] ->
  let response := fisheries toLowerCase region sstRes (Some rows) in
  response = (200%nat, JObj [("count", JNum $0)]) /\
  get "sustainability_index" (snd response) = None /\
  get "sustainability_level" (snd response) = None /\
  get "collapse_risk" (snd response) = None /\
  get "climate_stress" (snd response) = None /\
  get "projection" (snd response) = None /\
  get "stats" (snd response) = None /\
  get "data" (snd response) = None.
Proof.
  intros Hnone. unfold fisheries. cbv zeta.
  rewrite Hnone, scoreRisk_nil. repeat split.
Qed.

Lemma fisheries_no_matching_record_witness :
  fisheries Examples.ascii_lower (Some "Pacific") None
            (Some [Examples.full_use])
  = (200%nat, JObj [("count", JNum $0)]).
Proof.
  apply (fisheries_no_matching_record
           Examples.ascii_lower (Some "Pacific") None [Examples.full_use]).
  reflexivity.
Defined.

(** The same record is kept when its own region is asked for. *)
Example fisheries_matching_record :
  get "sustainability_index"
      (snd (fisheries Examples.ascii_lower (Some "INDIAN OCEAN") None
                      (Some [Examples.full_use])))
  = Some (JNum $59).
Proof. reflexivity. Qed.

(** C1, on the code. A record with [msy_tonnes = 0] is divided by as it
    is.  With nothing caught the utilization is [0 / 0 = NaN], and both
    the sustainability index and the collapse risk of the response are
    [NaN]; with a positive catch the utilization is [Infinity], which
    the average and the reported utilization keep and only the cap of
    the pressure score at 120 hides from the two scores. *)
Theorem msy_zero_is_not_guarded :
  avgMSY [Examples.no_msy_no_catch; Examples.full_use] = JS.NaN /\
  finalIndex [Examples.no_msy_no_catch; Examples.full_use] $27 = JS.NaN /\
  finalCollapseRisk [Examples.no_msy_no_catch; Examples.full_use] $27
    = JS.NaN /\
  get "sustainability_index"
      (scoreRisk None [Examples.no_msy_no_catch; Examples.full_use] $27)
    = Some (JNum JS.NaN) /\
  avgMSY [Examples.no_msy_catch; Examples.full_use] = JS.PInf /\
  msyPressureScore [Examples.no_msy_catch; Examples.full_use] = $120.
Proof. repeat split. Qed.

End Degenerate.

(* ================================================================== *)
(** * Numbers up to the representation of a rational *)
(* ================================================================== *)

#[local] Instance equiv_Equivalence : Equivalence JS.equiv.
Proof.
  split.
  - intros [| | |a]; simpl; auto. reflexivity.
  - intros [| | |a] [| | |b]; simpl; auto. intros H; now symmetry.
  - intros [| | |a] [| | |b] [| | |c]; simpl; auto; try contradiction.
    intros H1 H2. now rewrite H1.
Qed.

Lemma Qeq_bool_comp (a a' : Q) (Ha : a == a') (b b' : Q) (Hb : b == b') : Qeq_bool a b = Qeq_bool a' b'.
Proof. now rewrite Ha, Hb. Qed.

Lemma Qltb_comp (a a' b b' : Q) : a == a' -> b == b' -> JS.Qltb a b = JS.Qltb a' b'.
Proof. intros Ha Hb. unfold JS.Qltb. now rewrite Ha, Hb. Qed.

#[local] Instance add_Proper : Proper (JS.equiv ==> JS.equiv ==> JS.equiv) JS.add.
Proof.
  intros [| | |a] [| | |a'] Ha [| | |b] [| | |b'] Hb; simpl in *;
    try contradiction; try exact I.
  now rewrite Ha, Hb.
Qed.

#[local] Instance mul_Proper : Proper (JS.equiv ==> JS.equiv ==> JS.equiv) JS.mul.
Proof.
  intros [| | |a] [| | |a'] Ha [| | |b] [| | |b'] Hb; simpl in *;
    try contradiction; try exact I;
    try (rewrite Ha); try (rewrite Hb); try reflexivity.
Qed.

#[local] Instance div_Proper : Proper (JS.equiv ==> JS.equiv ==> JS.equiv) JS.div.
Proof.
  intros [| | |a] [| | |a'] Ha [| | |b] [| | |b'] Hb; simpl in *;
    try contradiction; try exact I; try reflexivity.
  - rewrite (Qltb_comp b b' 0 0 Hb (Qeq_refl 0)). reflexivity.
  - rewrite (Qltb_comp b b' 0 0 Hb (Qeq_refl 0)). reflexivity.
  - rewrite (Qeq_bool_comp b b' Hb 0 0 (Qeq_refl 0)).
    destruct (Qeq_bool b' 0); simpl.
    + now rewrite Ha.
    + now rewrite Ha, Hb.
Qed.

Lemma Qfloor_unique (x : Q) (z : Z) :
  inject_Z z <= x -> x < inject_Z (z + 1) -> Qfloor x = z.
Proof.
  intros Hlo Hhi.
  pose proof (Qfloor_le x) as H1. pose proof (Qlt_floor x) as H2.
  assert (Ha : (Qfloor x < z + 1)%Z).
  { rewrite Zlt_Qlt. lra. }
  assert (Hb : (z < Qfloor x + 1)%Z).
  { rewrite Zlt_Qlt. lra. }
  lia.
Qed.

Lemma le_of_Z (a b : Z) : Qle_bool (inject_Z a) (inject_Z b) = (a <=? b)%Z.
Proof.
  apply eq_true_iff_eq. rewrite Qle_bool_iff, Z.leb_le, Zle_Qle. reflexivity.
Qed.


Lemma Zleb_Qle (a b : Z) : (a <=? b)%Z = true -> inject_Z a <= inject_Z b.
Proof. intros H. apply Z.leb_le in H. now rewrite <- Zle_Qle. Qed.

Lemma Zleb_Qlt (a b : Z) : (a <=? b)%Z = false -> inject_Z b < inject_Z a.
Proof. intros H. apply Z.leb_gt in H. now rewrite <- Zlt_Qlt. Qed.

Ltac zprop :=
  repeat match goal with
  | H : (_ <=? _)%Z = true |- _ => apply Zleb_Qle in H
  | H : (_ <=? _)%Z = false |- _ => apply Zleb_Qlt in H
  end.

Ltac zcases :=
  repeat match goal with
  | |- context [(?a <=? ?b)%Z] =>
      let E := fresh "E" in destruct (a <=? b)%Z eqn:E
  end.


Ltac qconst :=
  change (inject_Z 100) with 100 in *;
  change (inject_Z 1) with 1 in *;
  change (inject_Z 0) with 0 in *.

(** Rounding then clamping to [0, 100], as the code does, is clamping
    then rounding. *)
Lemma clamp_round (x : JS.num) :
  JS.max $0 (JS.min $100 (JS.round x)) = JS.round (Spec.clamp x $0 $100).
Proof.
  destruct x as [| | |q]; try reflexivity.
  unfold Spec.clamp, JS.round, JS.min, JS.max, JS.le, JS.of_Z.
  pose proof (Qfloor_le (q + (1 # 2))) as Hlo.
  pose proof (Qlt_floor (q + (1 # 2))) as Hhi.
  rewrite inject_Z_plus in Hhi.
  set (k := Qfloor (q + (1 # 2))) in *. clearbody k.
  change 100 with (inject_Z 100). change 0 with (inject_Z 0).
  rewrite !le_of_Z.
  destruct (100 <=? k)%Z eqn:E1; destruct (Qle_bool (inject_Z 0) q) eqn:E2;
    cbn match; rewrite ?le_of_Z; qcases; zcases; zprop; qprop;
    try (exfalso; qconst; lra);
    do 2 f_equal; symmetry; try reflexivity;
    apply Qfloor_unique; rewrite ?inject_Z_plus; qconst; lra.
Qed.

#[local] Instance le_Proper : Proper (JS.equiv ==> JS.equiv ==> eq) JS.le.
Proof.
  intros [| | |a] [| | |a'] Ha [| | |b] [| | |b'] Hb; simpl in *;
    try contradiction; try reflexivity.
  now rewrite Ha, Hb.
Qed.

#[local] Instance neg_Proper : Proper (JS.equiv ==> JS.equiv) JS.neg.
Proof.
  intros [| | |a] [| | |a'] Ha; simpl in *; try contradiction; try exact I.
  now rewrite Ha.
Qed.

#[local] Instance sub_Proper : Proper (JS.equiv ==> JS.equiv ==> JS.equiv) JS.sub.
Proof. intros x x' Hx y y' Hy. unfold JS.sub. now rewrite Hx, Hy. Qed.

#[local] Instance min_Proper : Proper (JS.equiv ==> JS.equiv ==> JS.equiv) JS.min.
Proof.
  intros x x' Hx y y' Hy. unfold JS.min.
  rewrite (le_Proper x x' Hx y y' Hy).
  destruct x, x'; try contradiction; destruct y, y'; try contradiction;
    try exact I; destruct (JS.le _ _); assumption.
Qed.

#[local] Instance max_Proper : Proper (JS.equiv ==> JS.equiv ==> JS.equiv) JS.max.
Proof.
  intros x x' Hx y y' Hy. unfold JS.max.
  rewrite (le_Proper y y' Hy x x' Hx).
  destruct x, x'; try contradiction; destruct y, y'; try contradiction;
    try exact I; destruct (JS.le _ _); assumption.
Qed.

#[local] Instance clamp_Proper :
  Proper (JS.equiv ==> JS.equiv ==> JS.equiv ==> JS.equiv) Spec.clamp.
Proof.
  intros x x' Hx lo lo' Hlo hi hi' Hhi. unfold Spec.clamp.
  now rewrite Hx, Hlo, Hhi.
Qed.

(** A clamped and rounded number is an integer of [0, 100] unless it is
    [NaN]. *)
Lemma clamped_int (x : JS.num) :
  JS.is_nan x = false ->
  JS.int_in 0 100 (JS.max $0 (JS.min $100 (JS.round x))).
Proof.
  destruct x as [| | |q]; intros Hx; try discriminate.
  - exists 100%Z. split; [reflexivity|lia].
  - exists 0%Z. split; [reflexivity|lia].
  - unfold JS.round, JS.min, JS.max, JS.le, JS.of_Z.
    set (k := Qfloor (q + (1 # 2))). clearbody k.
    change 100 with (inject_Z 100). change 0 with (inject_Z 0).
    rewrite !le_of_Z.
    destruct (100 <=? k)%Z eqn:E1; cbn match; rewrite ?le_of_Z.
    + exists 100%Z. split; [reflexivity|lia].
    + destruct (k <=? 0)%Z eqn:E2.
      * exists 0%Z. split; [reflexivity|lia].
      * exists k. split; [reflexivity|]. apply Z.leb_gt in E1, E2. lia.
Qed.

(** ** Finite numbers are closed under the arithmetic of the scores *)

Lemma finite_not_nan (x : JS.num) : JS.is_finite x = true -> JS.is_nan x = false.
Proof. destruct x; simpl; congruence. Qed.


Lemma finite_mul (x y : JS.num) :
  JS.is_finite x = true -> JS.is_finite y = true ->
  JS.is_finite (x * y)%js = true.
Proof. destruct x, y; simpl; congruence. Qed.


Lemma of_nat_pos (n : nat) : (0 < n)%nat -> 0 < inject_Z (Z.of_nat n).
Proof.
  intros H. change 0 with (inject_Z 0). rewrite <- Zlt_Qlt. lia.
Qed.

Lemma fin_div (a b : Q) : ~ b == 0 -> ($a / $b)%js = $(a / b).
Proof.
  intros Hb. simpl. destruct (Qeq_bool b 0) eqn:E; [|reflexivity].
  apply Qeq_bool_iff in E. contradiction.
Qed.

(** Dividing by the length of a non-empty array. *)
Lemma fin_div_length (a : Q) (n : nat) :
  (0 < n)%nat ->
  ($a / JS.of_nat n)%js = $(a / inject_Z (Z.of_nat n)).
Proof.
  intros Hn. unfold JS.of_nat, JS.of_Z. apply fin_div.
  pose proof (of_nat_pos n Hn). lra.
Qed.



Lemma length_pos {A : Type} (l : list A) : l <> [] -> (0 < List.length l)%nat.
Proof. destruct l; [congruence|simpl; lia]. Qed.

Section RiskFormula.

Import Risk.


Section Valid.

Variable rs : list StockRecord.
Hypothesis Hne : rs <> [].
Hypothesis Hnum : Forall numeric rs.
Hypothesis Hmsy : Forall valid_msy rs.


End Valid.

Example scenario_full_use :
  finalIndex [Examples.full_use; Examples.full_use] $27 = $61 /\
  finalCollapseRisk [Examples.full_use; Examples.full_use] $27 = $46.
Proof. split; reflexivity. Qed.

End RiskFormula.

(** ** The operations of the index do not decrease in their argument *)

Lemma nondecr_refl (x : JS.num) : JS.nondecr x x.
Proof.
  destruct x as [| | |a]; unfold JS.nondecr; simpl; auto.
  right; right. apply Qle_bool_iff. lra.
Qed.



Lemma nondecr_le (x y : JS.num) :
  JS.nondecr x y -> JS.is_nan x = false -> JS.is_nan y = false ->
  (x <=? y)%js = true.
Proof. intros [H|[H|H]] Hx Hy; congruence. Qed.

(** Split [nondecr] on the shape of the numbers, leaving the goals on
    rationals to [lra]. *)
Ltac nondecr_cases :=
  unfold JS.nondecr; simpl;
  repeat match goal with
  | |- _ -> _ => intro
  | H : _ \/ _ |- _ => destruct H
  | H : true = false |- _ => discriminate H
  | H : false = true |- _ => discriminate H
  end; auto.

Lemma nondecr_add (a a' b b' : JS.num) :
  JS.nondecr a a' -> JS.nondecr b b' -> JS.nondecr (a + b)%js (a' + b')%js.
Proof.
  destruct a as [| | |a], a' as [| | |a'], b as [| | |b], b' as [| | |b'];
    nondecr_cases.
  right; right. qprop. apply Qle_bool_iff. lra.
Qed.

Lemma nondecr_mul_pos (x y : JS.num) (c : Q) :
  0 < c -> JS.nondecr x y -> JS.nondecr (x * $c)%js (y * $c)%js.
Proof.
  intros Hc. assert (Hgt : (c ?= 0) = Gt) by now apply Qgt_alt.
  destruct x as [| | |a], y as [| | |b]; simpl; rewrite ?Hgt;
    nondecr_cases.
  right; right. qprop. apply Qle_bool_iff. nra.
Qed.

Lemma nondecr_div_length (x y : JS.num) (n : nat) :
  (0 < n)%nat -> JS.nondecr x y ->
  JS.nondecr (x / JS.of_nat n)%js (y / JS.of_nat n)%js.
Proof.
  intros Hn. pose proof (of_nat_pos n Hn) as Hpos.
  assert (Hl : JS.Qltb (inject_Z (Z.of_nat n)) 0 = false)
    by (apply Qltb_false; lra).
  destruct x as [| | |a], y as [| | |b];
    rewrite ?fin_div_length by assumption;
    unfold JS.of_nat, JS.of_Z; simpl; rewrite ?Hl; nondecr_cases.
  right; right. qprop. apply Qle_bool_iff.
  apply Qmult_le_compat_r; [assumption|].
  apply Qlt_le_weak, Qinv_lt_0_compat. assumption.
Qed.

Lemma nondecr_round (x y : JS.num) :
  JS.nondecr x y -> JS.nondecr (JS.round x) (JS.round y).
Proof.
  destruct x as [| | |a], y as [| | |b]; unfold JS.nondecr;
    cbn [JS.round JS.is_nan JS.le JS.of_Z];
    intros [H|[H|H]]; try discriminate; auto.
  right; right. qprop. rewrite le_of_Z. apply Z.leb_le.
  apply Qfloor_resp_le. lra.
Qed.



(* ================================================================== *)
(** * Rounding to the nearest double *)
(* ================================================================== *)

Section Powers.

Import F64.

Lemma pow2_pos (z : Z) : 0 < pow2 z.
Proof. apply Qpower_0_lt. reflexivity. Qed.

Lemma pow2_add (a b : Z) : pow2 (a + b) == pow2 a * pow2 b.
Proof. apply Qpower_plus. discriminate. Qed.

Lemma pow2_le (a b : Z) : (a <= b)%Z -> pow2 a <= pow2 b.
Proof. intros H. apply Qpower_le_compat_l; [assumption|discriminate]. Qed.

Lemma pow2_lt_inv (a b : Z) : pow2 a < pow2 b -> (a < b)%Z.
Proof. intros H. apply (Qpower_lt_compat_l_inv 2); [assumption|reflexivity]. Qed.

(** A non-negative power of two is an integer. *)
Lemma pow2_Z (k : Z) : (0 <= k)%Z -> pow2 k == inject_Z (2 ^ k).
Proof. intros H. symmetry. now apply (Zpower_Qpower 2). Qed.

Lemma pow2_split (a b : Z) : pow2 a == pow2 (a - b) * pow2 b.
Proof. rewrite <- pow2_add. now replace (a - b + b)%Z with a by ring. Qed.

(** [log2 q] is the exponent of the binade of [q]. *)
Lemma log2_spec (q : Q) :
  0 < q -> pow2 (log2 q) <= q /\ q < pow2 (log2 q + 1).
Proof.
  intros Hq. unfold log2.
  destruct q as [n d]. cbn [Qnum Qden].
  assert (Hn : (0 < n)%Z).
  { unfold Qlt in Hq. cbn in Hq. lia. }
  set (a := Z.log2 n). set (b := Z.log2 (Z.pos d)).
  destruct (Z.log2_spec n Hn) as [Ha1 Ha2]. fold a in Ha1, Ha2.
  destruct (Z.log2_spec (Z.pos d) (Pos2Z.is_pos d)) as [Hb1 Hb2].
  fold b in Hb1, Hb2.
  assert (Ha0 : (0 <= a)%Z) by apply Z.log2_nonneg.
  assert (Hb0 : (0 <= b)%Z) by apply Z.log2_nonneg.
  rewrite Zle_Qle in Ha1, Hb1. rewrite Zlt_Qlt in Ha2, Hb2.
  rewrite <- pow2_Z in Ha1, Hb1, Ha2, Hb2 by lia.
  assert (Hd : 0 < inject_Z (Z.pos d)).
  { change 0 with (inject_Z 0). now rewrite <- Zlt_Qlt. }
  assert (Hqd : n # d == inject_Z n / inject_Z (Z.pos d))
    by apply Qmake_Qdiv.
  (* the quotient lies strictly between 2^(a-b-1) and 2^(a-b+1) *)
  assert (Hlow : pow2 (a - b - 1) < n # d).
  { rewrite Hqd. apply Qlt_shift_div_l; [assumption|].
    pose proof (pow2_pos (a - b - 1)) as HP.
    pose proof (pow2_split a (b + 1)) as Hs.
    replace (a - (b + 1))%Z with (a - b - 1)%Z in Hs by ring.
    apply Qlt_le_trans with (pow2 (a - b - 1) * pow2 (b + 1)).
    - apply Qmult_lt_l; assumption.
    - rewrite <- Hs. assumption. }
  assert (Hhigh : n # d < pow2 (a - b + 1)).
  { rewrite Hqd. apply Qlt_shift_div_r; [assumption|].
    pose proof (pow2_pos (a - b + 1)) as HP.
    pose proof (pow2_split (a + 1) b) as Hs.
    replace (a + 1 - b)%Z with (a - b + 1)%Z in Hs by ring.
    apply Qlt_le_trans with (pow2 (a + 1)); [assumption|].
    rewrite Hs. apply Qmult_le_l; assumption. }
  destruct (Qle_bool (pow2 (a - b)) (n # d)) eqn:E.
  - apply Qle_bool_iff in E. split; assumption.
  - apply Qle_bool_false in E.
    replace (a - b - 1 + 1)%Z with (a - b)%Z by ring.
    split; [now apply Qlt_le_weak|assumption].
Qed.

Lemma log2_unique (q : Q) (e : Z) :
  pow2 e <= q -> q < pow2 (e + 1) -> log2 q = e.
Proof.
  intros H1 H2.
  assert (Hq : 0 < q) by (pose proof (pow2_pos e); lra).
  destruct (log2_spec q Hq) as [H3 H4].
  assert (Ha : (e < log2 q + 1)%Z) by (apply pow2_lt_inv; lra).
  assert (Hb : (log2 q < e + 1)%Z) by (apply pow2_lt_inv; lra).
  lia.
Qed.

Lemma log2_mono (a b : Q) : 0 < a -> a <= b -> (log2 a <= log2 b)%Z.
Proof.
  intros Ha Hab.
  destruct (log2_spec a Ha) as [H1 _].
  destruct (log2_spec b) as [_ H2]; [lra|].
  assert (H : (log2 a < log2 b + 1)%Z) by (apply pow2_lt_inv; lra).
  lia.
Qed.

Lemma log2_comp (a b : Q) : 0 < a -> a == b -> log2 a = log2 b.
Proof.
  intros Ha Hab. symmetry.
  destruct (log2_spec a Ha) as [H1 H2].
  apply log2_unique; lra.
Qed.

End Powers.

Section Nearest.

Import F64.

Lemma nearest_even_floor (x : Q) :
  (Qfloor x <= nearest_even x <= Qfloor x + 1)%Z.
Proof.
  unfold nearest_even.
  destruct (x - inject_Z (Qfloor x) ?= 1 # 2);
    [destruct (Z.even (Qfloor x))|..]; lia.
Qed.

Lemma nearest_even_comp (x y : Q) : x == y -> nearest_even x = nearest_even y.
Proof.
  intros H. unfold nearest_even.
  rewrite (Qfloor_comp x y H).
  assert (E : x - inject_Z (Qfloor y) == y - inject_Z (Qfloor y))
    by now rewrite H.
  now rewrite (Qcompare_comp _ _ E _ _ (Qeq_refl (1 # 2))).
Qed.

(** An integer is its own nearest integer. *)
Lemma nearest_even_Z (n : Z) : nearest_even (inject_Z n) = n.
Proof.
  unfold nearest_even. rewrite Qfloor_Z.
  assert (H : (inject_Z n - inject_Z n ?= 1 # 2) = Lt).
  { apply Qlt_alt. ring_simplify (inject_Z n - inject_Z n). reflexivity. }
  now rewrite H.
Qed.

Lemma nearest_even_mono (x y : Q) :
  x <= y -> (nearest_even x <= nearest_even y)%Z.
Proof.
  intros Hxy.
  pose proof (Qfloor_resp_le x y Hxy) as Hf.
  destruct (Z.eq_dec (Qfloor x) (Qfloor y)) as [E|N].
  - unfold nearest_even. rewrite E.
    set (f := Qfloor y). set (g := inject_Z f).
    destruct (x - g ?= 1 # 2) eqn:Cx; destruct (y - g ?= 1 # 2) eqn:Cy;
      try (destruct (Z.even f)); try lia; exfalso; clearbody g;
      rewrite <- ?Qlt_alt, <- ?Qgt_alt, <- ?Qeq_alt in Cx;
      rewrite <- ?Qlt_alt, <- ?Qgt_alt, <- ?Qeq_alt in Cy; lra.
  - pose proof (nearest_even_floor x). pose proof (nearest_even_floor y).
    lia.
Qed.

End Nearest.

Section Rounding.

Import F64.

Lemma ulp_exponent_mono (a b : Q) :
  0 < a -> a <= b -> (ulp_exponent a <= ulp_exponent b)%Z.
Proof.
  intros Ha Hab. unfold ulp_exponent.
  pose proof (log2_mono a b Ha Hab). lia.
Qed.

Lemma ulp_exponent_comp (a b : Q) :
  0 < a -> a == b -> ulp_exponent a = ulp_exponent b.
Proof.
  intros Ha Hab. unfold ulp_exponent. now rewrite (log2_comp a b Ha Hab).
Qed.

Lemma div_pow2_le (a b : Q) (u : Z) : a <= b -> a / pow2 u <= b / pow2 u.
Proof.
  intros H. apply Qmult_le_compat_r; [assumption|].
  apply Qlt_le_weak, Qinv_lt_0_compat, pow2_pos.
Qed.

Lemma mul_pow2_le (a b : Q) (u : Z) : a <= b -> a * pow2 u <= b * pow2 u.
Proof.
  intros H. apply Qmult_le_compat_r; [assumption|].
  apply Qlt_le_weak, pow2_pos.
Qed.

Lemma div_pow2 (a b : Z) : pow2 a / pow2 b == pow2 (a - b).
Proof.
  pose proof (pow2_pos b) as Hb.
  rewrite (pow2_split a b). field. lra.
Qed.

(** The rounded value of a positive number of the binade [2^e] is at
    most the power of two that ends the binade (or the spacing of the
    subnormals, below them). *)
Lemma round_val_le_pow2 (a : Q) (k : Z) :
  0 < a -> a <= pow2 k -> (ulp_exponent a <= k)%Z -> round_val a <= pow2 k.
Proof.
  intros Ha Hak Hu. unfold round_val.
  set (u := ulp_exponent a) in *.
  assert (H : (nearest_even (a / pow2 u) <= 2 ^ (k - u))%Z).
  { rewrite <- (nearest_even_Z (2 ^ (k - u))).
    apply nearest_even_mono.
    rewrite <- pow2_Z by lia. rewrite <- div_pow2.
    now apply div_pow2_le. }
  rewrite Zle_Qle in H. rewrite <- pow2_Z in H by lia.
  rewrite (pow2_split k u). now apply mul_pow2_le.
Qed.

(** ... and at least the power of two that begins it. *)
Lemma round_val_ge_pow2 (a : Q) (k : Z) :
  pow2 k <= a -> (ulp_exponent a <= k)%Z -> pow2 k <= round_val a.
Proof.
  intros Hak Hu. unfold round_val.
  set (u := ulp_exponent a) in *.
  assert (H : (2 ^ (k - u) <= nearest_even (a / pow2 u))%Z).
  { rewrite <- (nearest_even_Z (2 ^ (k - u))) at 1.
    apply nearest_even_mono.
    rewrite <- pow2_Z by lia. rewrite <- div_pow2.
    now apply div_pow2_le. }
  rewrite Zle_Qle in H. rewrite <- pow2_Z in H by lia.
  rewrite (pow2_split k u). now apply mul_pow2_le.
Qed.

Lemma round_val_nonneg (a : Q) : 0 < a -> 0 <= round_val a.
Proof.
  intros Ha. unfold round_val.
  pose proof (pow2_pos (ulp_exponent a)) as Hp.
  assert (H : (0 <= nearest_even (a / pow2 (ulp_exponent a)))%Z).
  { rewrite <- (nearest_even_Z 0). apply nearest_even_mono.
    apply Qle_shift_div_l; [assumption|]. change (inject_Z 0) with 0. lra. }
  rewrite Zle_Qle in H. change (inject_Z 0) with 0 in H. nra.
Qed.

(** Rounding does not reverse the order of two positive numbers. *)
Lemma round_val_mono (a b : Q) :
  0 < a -> a <= b -> round_val a <= round_val b.
Proof.
  intros Ha Hab.
  assert (Hb : 0 < b) by lra.
  pose proof (ulp_exponent_mono a b Ha Hab) as Hu.
  destruct (Z.eq_dec (ulp_exponent a) (ulp_exponent b)) as [E|N].
  - unfold round_val. rewrite E. apply mul_pow2_le.
    rewrite <- Zle_Qle. apply nearest_even_mono. now apply div_pow2_le.
  - destruct (log2_spec a Ha) as [_ Ha2].
    destruct (log2_spec b Hb) as [Hb1 _].
    assert (Hlt : (ulp_exponent a < ulp_exponent b)%Z) by lia.
    unfold ulp_exponent in Hlt.
    apply Qle_trans with (pow2 (log2 b)).
    + apply round_val_le_pow2; [assumption| |unfold ulp_exponent; lia].
      apply Qle_trans with (pow2 (log2 a + 1)); [lra|].
      apply pow2_le. lia.
    + apply round_val_ge_pow2; [assumption|unfold ulp_exponent; lia].
Qed.

Lemma round_val_comp (a b : Q) : 0 < a -> a == b -> round_val a == round_val b.
Proof.
  intros Ha Hab. unfold round_val.
  rewrite (ulp_exponent_comp a b Ha Hab).
  rewrite (nearest_even_comp (a / pow2 (ulp_exponent b))
             (b / pow2 (ulp_exponent b))); [reflexivity|].
  now rewrite Hab.
Qed.

Lemma round_pos_comp (a b : Q) : 0 < a -> a == b -> round_pos a = round_pos b.
Proof.
  intros Ha Hab. unfold round_pos.
  pose proof (round_val_comp a b Ha Hab) as Hv.
  rewrite (Qleb_comp _ _ (Qeq_refl (pow2 1024)) _ _ Hv).
  destruct (Qle_bool (pow2 1024) (round_val b)); [reflexivity|].
  f_equal. now apply Qred_complete.
Qed.

(** Numbers that are equal as rationals round to the same double. *)
Lemma rnd_comp (a b : Q) : a == b -> rnd a = rnd b.
Proof.
  intros Hab. unfold rnd.
  rewrite (Qcompare_comp _ _ Hab _ _ (Qeq_refl 0)).
  destruct (b ?= 0) eqn:C; [reflexivity| |].
  - f_equal. apply round_pos_comp; [|now rewrite Hab].
    rewrite <- Qlt_alt in C. lra.
  - apply round_pos_comp; [|assumption].
    rewrite <- Qgt_alt in C. lra.
Qed.

End Rounding.

Section RoundingOrder.

Import F64.

Lemma round_pos_nonneg (a : Q) : 0 < a -> JS.le $0 (round_pos a) = true.
Proof.
  intros Ha. unfold round_pos.
  destruct (Qle_bool (pow2 1024) (round_val a)); [reflexivity|].
  unfold JS.le. apply Qle_bool_iff. rewrite Qred_correct.
  now apply round_val_nonneg.
Qed.

Lemma round_pos_mono (a b : Q) :
  0 < a -> a <= b -> JS.le (round_pos a) (round_pos b) = true.
Proof.
  intros Ha Hab. pose proof (round_val_mono a b Ha Hab) as Hv.
  unfold round_pos.
  destruct (Qle_bool (pow2 1024) (round_val b)) eqn:Eb;
    destruct (Qle_bool (pow2 1024) (round_val a)) eqn:Ea;
    try reflexivity; qprop.
  - exfalso. lra.
  - unfold JS.le. apply Qle_bool_iff. now rewrite !Qred_correct.
Qed.

Lemma le_neg (x y : JS.num) :
  JS.le x y = true -> JS.le (JS.neg y) (JS.neg x) = true.
Proof.
  destruct x as [| | |a], y as [| | |b]; cbn; try congruence.
  intros H. qprop. apply Qle_bool_iff. lra.
Qed.

Lemma le_trans (x y z : JS.num) :
  JS.le x y = true -> JS.le y z = true -> JS.le x z = true.
Proof.
  destruct x as [| | |a], y as [| | |b], z as [| | |c]; cbn; try congruence.
  intros H1 H2. qprop. apply Qle_bool_iff. lra.
Qed.

(** Rounding keeps the order. *)
Lemma rnd_mono (a b : Q) : a <= b -> JS.le (rnd a) (rnd b) = true.
Proof.
  intros Hab. unfold rnd.
  destruct (a ?= 0) eqn:Ca; destruct (b ?= 0) eqn:Cb;
    rewrite <- ?Qlt_alt, <- ?Qgt_alt, <- ?Qeq_alt in Ca;
    rewrite <- ?Qlt_alt, <- ?Qgt_alt, <- ?Qeq_alt in Cb;
    try (exfalso; lra); try reflexivity.
  - now apply round_pos_nonneg.
  - change (JS.le (JS.neg (round_pos (- a))) (JS.neg $0) = true).
    apply le_neg, round_pos_nonneg. lra.
  - apply le_neg, round_pos_mono; lra.
  - apply le_trans with (JS.neg $0).
    + apply le_neg, round_pos_nonneg. lra.
    + now apply round_pos_nonneg.
  - now apply round_pos_mono.
Qed.

Lemma rnd_not_nan (q : Q) : JS.is_nan (rnd q) = false.
Proof.
  unfold rnd, round_pos.
  destruct (q ?= 0); [reflexivity| |];
    match goal with |- context [Qle_bool ?a ?b] => destruct (Qle_bool a b) end;
    reflexivity.
Qed.

Lemma le_NInf (x : JS.num) : JS.is_nan x = false -> JS.le JS.NInf x = true.
Proof. destruct x; cbn; congruence. Qed.

Lemma le_PInf (x : JS.num) : JS.is_nan x = false -> JS.le x JS.PInf = true.
Proof. destruct x; cbn; congruence. Qed.

Lemma rounded_nan (x : JS.num) : JS.is_nan (rounded x) = JS.is_nan x.
Proof. destruct x; try reflexivity. apply rnd_not_nan. Qed.

(** The rounded results of two operations are in the order of the exact
    results. *)
Lemma nondecr_rounded (x y : JS.num) :
  JS.nondecr x y -> JS.nondecr (rounded x) (rounded y).
Proof.
  unfold JS.nondecr. rewrite !rounded_nan.
  intros [H|[H|H]]; auto. right; right.
  destruct x as [| | |a], y as [| | |b]; cbn in *; try congruence.
  - apply le_NInf, rnd_not_nan.
  - apply le_PInf, rnd_not_nan.
  - qprop. now apply rnd_mono.
Qed.

(** A number with at most 53 significant bits, a multiple of [2^-1074]
    and below [2^1024], is a double: rounding leaves it as it is. *)
Lemma round_pos_dyadic (m u : Z) :
  (0 < m < 2 ^ 53)%Z -> (-1074 <= u)%Z ->
  inject_Z m * pow2 u < pow2 1024 ->
  JS.equiv (round_pos (inject_Z m * pow2 u)) $(inject_Z m * pow2 u).
Proof.
  intros Hm Hu Hmax.
  set (q := inject_Z m * pow2 u).
  pose proof (pow2_pos u) as Hpu.
  assert (Hmq : 0 < inject_Z m).
  { change 0 with (inject_Z 0). rewrite <- Zlt_Qlt. lia. }
  assert (Hq : 0 < q) by (unfold q; nra).
  destruct (Z.log2_spec m (proj1 Hm)) as [Hl1 Hl2].
  assert (Hl0 : (0 <= Z.log2 m)%Z) by apply Z.log2_nonneg.
  assert (Hl53 : (Z.log2 m < 53)%Z).
  { apply Z.log2_lt_pow2; lia. }
  assert (He : log2 q = (Z.log2 m + u)%Z).
  { rewrite Zle_Qle in Hl1. rewrite Zlt_Qlt in Hl2.
    rewrite <- pow2_Z in Hl1, Hl2 by lia.
    replace (Z.succ (Z.log2 m)) with (Z.log2 m + 1)%Z in Hl2 by lia.
    apply log2_unique; unfold q.
    - rewrite pow2_add. now apply mul_pow2_le.
    - replace (Z.log2 m + u + 1)%Z with (Z.log2 m + 1 + u)%Z by ring.
      rewrite pow2_add. apply Qmult_lt_compat_r; assumption. }
  assert (Hv : round_val q == q).
  { unfold round_val, ulp_exponent. rewrite He.
    set (w := Z.max (Z.log2 m + u - 52) (-1074)).
    assert (Hw : (w <= u)%Z) by (unfold w; lia).
    assert (Hint : q / pow2 w == inject_Z (m * 2 ^ (u - w))).
    { rewrite inject_Z_mult, <- pow2_Z by lia.
      unfold q. rewrite (pow2_split u w) at 1.
      pose proof (pow2_pos w). field. lra. }
    rewrite (nearest_even_comp _ _ Hint), nearest_even_Z.
    rewrite <- Hint. pose proof (pow2_pos w). field. lra. }
  unfold round_pos.
  destruct (Qle_bool (pow2 1024) (round_val q)) eqn:E; qprop.
  - exfalso. unfold q in *. lra.
  - unfold JS.equiv. now rewrite Qred_correct.
Qed.

Lemma rnd_dyadic (m u : Z) :
  (Z.abs m < 2 ^ 53)%Z -> (-1074 <= u)%Z ->
  inject_Z (Z.abs m) * pow2 u < pow2 1024 ->
  JS.equiv (rnd (inject_Z m * pow2 u)) $(inject_Z m * pow2 u).
Proof.
  intros Hm Hu Hmax. pose proof (pow2_pos u) as Hpu.
  unfold rnd.
  destruct (inject_Z m * pow2 u ?= 0) eqn:C;
    rewrite <- ?Qlt_alt, <- ?Qgt_alt, <- ?Qeq_alt in C.
  - cbn. now symmetry.
  - assert (Hneg : (m < 0)%Z).
    { rewrite Zlt_Qlt. change (inject_Z 0) with 0. nra. }
    assert (E : - (inject_Z m * pow2 u) == inject_Z (Z.abs m) * pow2 u).
    { rewrite Z.abs_neq by lia. rewrite inject_Z_opp. ring. }
    assert (Hq : 0 < - (inject_Z m * pow2 u)) by lra.
    rewrite (round_pos_comp _ _ Hq E).
    rewrite Z.abs_neq in Hm by lia.
    assert (Hd := round_pos_dyadic (Z.abs m) u).
    rewrite Z.abs_neq in Hd by lia.
    rewrite Z.abs_neq in Hmax by lia. rewrite Z.abs_neq by lia.
    specialize (Hd ltac:(lia) Hu Hmax).
    destruct (round_pos (inject_Z (- m) * pow2 u)) as [| | |v];
      cbn [JS.equiv JS.neg] in *; try contradiction.
    rewrite Hd, inject_Z_opp. ring.
  - assert (Hpos : (0 < m)%Z).
    { rewrite Zlt_Qlt. change (inject_Z 0) with 0. nra. }
    rewrite Z.abs_eq in Hm, Hmax by lia.
    apply round_pos_dyadic; [lia|assumption|assumption].
Qed.

End RoundingOrder.

(** ** Double-precision operations keep the order *)

Section OperationsOrder.

Import F64.

Lemma between_refl (x : JS.num) : JS.is_nan x = false -> between x x x.
Proof.
  intros H. assert (JS.le x x = true); [|now split].
  apply nondecr_le; auto using nondecr_refl.
Qed.

Lemma le_not_nan_l (x y : JS.num) : JS.le x y = true -> JS.is_nan x = false.
Proof. destruct x, y; cbn; congruence. Qed.

Lemma le_not_nan_r (x y : JS.num) : JS.le x y = true -> JS.is_nan y = false.
Proof. destruct x, y; cbn; congruence. Qed.

(** The order of two results that are numbers is the order that
    [nondecr] gives. *)
Lemma rounded_le (x y : JS.num) :
  JS.nondecr x y -> JS.is_nan x = false -> JS.is_nan y = false ->
  JS.le (rounded x) (rounded y) = true.
Proof.
  intros H Hx Hy. apply nondecr_le; rewrite ?rounded_nan; try assumption.
  now apply nondecr_rounded.
Qed.

Lemma nondecr_of_le' (x y : JS.num) : JS.le x y = true -> JS.nondecr x y.
Proof. intros H. right; right. exact H. Qed.

(** A sum is [NaN] only when a term is, or when the terms are the two
    infinities. *)
Lemma add_not_nan_finite (x y : JS.num) :
  JS.is_nan x = false -> JS.is_finite y = true ->
  JS.is_nan (JS.add x y) = false.
Proof. destruct x, y; cbn; congruence. Qed.

Lemma add_not_nan_above (a c x y : JS.num) :
  JS.is_finite (JS.add a c) = true ->
  JS.le a x = true -> JS.le c y = true ->
  JS.is_nan (JS.add x y) = false.
Proof. destruct a, c, x, y; cbn; congruence. Qed.

Lemma add_not_nan_below (b d x y : JS.num) :
  JS.is_finite (JS.add b d) = true ->
  JS.le x b = true -> JS.le y d = true ->
  JS.is_nan (JS.add x y) = false.
Proof. destruct b, d, x, y; cbn; congruence. Qed.

(** Interval arithmetic: the sum of two numbers lies between the sums
    of the ends, as soon as the lower ends or the upper ends are
    finite. *)
Lemma add_between (a b c d x y : JS.num) :
  between a b x -> between c d y ->
  JS.is_finite (JS.add a c) || JS.is_finite (JS.add b d) = true ->
  between (add a c) (add b d) (add x y).
Proof.
  intros [Hax Hxb] [Hcy Hyd] Hfin.
  assert (Hab : JS.le a b = true) by eauto using le_trans.
  assert (Hcd : JS.le c d = true) by eauto using le_trans.
  assert (Hn : JS.is_nan (JS.add a c) = false
               /\ JS.is_nan (JS.add x y) = false
               /\ JS.is_nan (JS.add b d) = false).
  { apply orb_true_iff in Hfin. destruct Hfin as [H|H].
    - repeat split.
      + now apply finite_not_nan.
      + now apply (add_not_nan_above a c).
      + now apply (add_not_nan_above a c).
    - repeat split.
      + now apply (add_not_nan_below b d).
      + now apply (add_not_nan_below b d).
      + now apply finite_not_nan. }
  destruct Hn as (N1 & N2 & N3).
  split; apply rounded_le; try assumption;
    apply nondecr_add; now apply nondecr_of_le'.
Qed.

Lemma between_neg (a b x : JS.num) :
  between a b x -> between (JS.neg b) (JS.neg a) (JS.neg x).
Proof. intros [H1 H2]. split; now apply le_neg. Qed.

Lemma sub_between (a b c d x y : JS.num) :
  between a b x -> between c d y ->
  JS.is_finite (JS.sub a d) || JS.is_finite (JS.sub b c) = true ->
  between (sub a d) (sub b c) (sub x y).
Proof.
  intros Hx Hy Hfin.
  exact (add_between a b (JS.neg d) (JS.neg c) x (JS.neg y) Hx
           (between_neg c d y Hy) Hfin).
Qed.

Lemma mul_not_nan_pos (x k : JS.num) :
  JS.is_nan x = false -> JS.is_finite k = true -> JS.lt $0 k = true ->
  JS.is_nan (JS.mul x k) = false.
Proof.
  destruct x as [| | |a], k as [| | |c]; cbn; try congruence;
    intros _ _ H; qprop;
    assert (E : (c ?= 0) = Gt) by (now apply Qgt_alt); now rewrite E.
Qed.

(** The product by a positive constant. *)
Lemma mul_between (a b x k : JS.num) :
  between a b x -> JS.is_finite k = true -> JS.lt $0 k = true ->
  between (mul a k) (mul b k) (mul x k).
Proof.
  intros [Hax Hxb] Hk Hpos.
  assert (Na : JS.is_nan (JS.mul a k) = false)
    by (apply mul_not_nan_pos; eauto using le_not_nan_l).
  assert (Nx : JS.is_nan (JS.mul x k) = false)
    by (apply mul_not_nan_pos; eauto using le_not_nan_l).
  assert (Nb : JS.is_nan (JS.mul b k) = false)
    by (apply mul_not_nan_pos; eauto using le_not_nan_r).
  destruct k as [| | |c]; try discriminate.
  cbn in Hpos. qprop.
  split; apply rounded_le; try assumption;
    apply nondecr_mul_pos; try assumption; now apply nondecr_of_le'.
Qed.

Lemma div_length_not_nan (x : JS.num) (n : nat) :
  (0 < n)%nat -> JS.is_nan x = false ->
  JS.is_nan (JS.div x (JS.of_nat n)) = false.
Proof.
  intros Hn Hx. pose proof (of_nat_pos n Hn) as Hpos.
  destruct x as [| | |a]; try discriminate.
  - unfold JS.of_nat, JS.of_Z. cbn.
    now destruct (JS.Qltb (inject_Z (Z.of_nat n)) 0).
  - unfold JS.of_nat, JS.of_Z. cbn.
    now destruct (JS.Qltb (inject_Z (Z.of_nat n)) 0).
  - now rewrite fin_div_length.
Qed.

(** The quotient by the length of a non-empty array. *)
Lemma div_length_between (a b x : JS.num) (n : nat) :
  (0 < n)%nat -> between a b x ->
  between (div a (JS.of_nat n)) (div b (JS.of_nat n)) (div x (JS.of_nat n)).
Proof.
  intros Hn [Hax Hxb].
  split; apply rounded_le;
    try (apply div_length_not_nan;
         eauto using le_not_nan_l, le_not_nan_r);
    apply nondecr_div_length; try assumption; now apply nondecr_of_le'.
Qed.

Lemma round_between (a b x : JS.num) :
  between a b x -> between (JS.round a) (JS.round b) (JS.round x).
Proof.
  intros [Hax Hxb].
  assert (Nr : forall y, JS.is_nan (JS.round y) = JS.is_nan y)
    by (now intros []).
  split; apply nondecr_le; rewrite ?Nr;
    eauto using le_not_nan_l, le_not_nan_r;
    apply nondecr_round; now apply nondecr_of_le'.
Qed.

Lemma between_int (lo hi : Z) (x : JS.num) :
  between (JS.of_Z lo) (JS.of_Z hi) (JS.round x) -> JS.int_in lo hi (JS.round x).
Proof.
  intros [H1 H2].
  destruct x as [| | |q]; unfold JS.round, JS.of_Z, JS.le in *;
    try discriminate.
  exists (Qfloor (q + (1 # 2))). split; [reflexivity|].
  rewrite le_of_Z in H1, H2. apply Z.leb_le in H1, H2. lia.
Qed.

(** The ends of an interval may be replaced by equal numbers. *)
Lemma between_equiv (a a' b b' x : JS.num) :
  JS.equiv a a' -> JS.equiv b b' -> between a b x -> between a' b' x.
Proof.
  intros Ha Hb [H1 H2]. split.
  - now rewrite <- (le_Proper a a' Ha x x (reflexivity x)).
  - now rewrite <- (le_Proper x x (reflexivity x) b b' Hb).
Qed.

(** An integer of fewer than 54 bits is a double. *)
Lemma rnd_Z (m : Z) :
  (Z.abs m < 2 ^ 53)%Z -> JS.equiv (rnd (inject_Z m)) (JS.of_Z m).
Proof.
  intros Hm.
  assert (E : inject_Z m == inject_Z m * pow2 0)
    by (change (pow2 0) with 1; ring).
  rewrite (rnd_comp _ _ E). unfold JS.of_Z.
  transitivity $(inject_Z m * pow2 0); [|cbn; now symmetry].
  apply rnd_dyadic; [assumption|lia|].
  change (pow2 0) with 1. rewrite Qmult_1_r.
  apply Qlt_trans with (inject_Z (2 ^ 53)).
  - now rewrite <- Zlt_Qlt.
  - rewrite pow2_Z by lia. rewrite <- Zlt_Qlt. reflexivity.
Qed.

(** The sum of two such integers, when it is one too, is exact. *)
Lemma add_Z (m n : Z) :
  (Z.abs (m + n) < 2 ^ 53)%Z ->
  JS.equiv (add (JS.of_Z m) (JS.of_Z n)) (JS.of_Z (m + n)).
Proof.
  intros H. unfold add, JS.of_Z. cbn [JS.add rounded].
  rewrite <- (rnd_Z (m + n) H). unfold JS.equiv.
  rewrite (rnd_comp (inject_Z m + inject_Z n) (inject_Z (m + n))).
  - destruct (rnd (inject_Z (m + n))); try exact I. reflexivity.
  - now rewrite inject_Z_plus.
Qed.

(** The sum of the elements of an array, each between the integers
    [lo] and [hi], is between [lo] and [hi] times the length: the sums
    of the ends are exact. *)
Lemma reduce_between {A : Type} (f : A -> JS.num) (lo hi : Z) (l : list A) :
  (Z.abs lo <= 2 ^ 20)%Z -> (Z.abs hi <= 2 ^ 20)%Z ->
  Forall (fun s => between (JS.of_Z lo) (JS.of_Z hi) (f s)) l ->
  forall (j : Z) (acc : JS.num),
    (0 <= j)%Z -> (j + Z.of_nat (List.length l) < 2 ^ 32)%Z ->
    between (JS.of_Z (lo * j)) (JS.of_Z (hi * j)) acc ->
    between (JS.of_Z (lo * (j + Z.of_nat (List.length l))))
            (JS.of_Z (hi * (j + Z.of_nat (List.length l))))
            (fold_left (fun sum s => add sum (f s)) l acc).
Proof.
  intros Hlo Hhi Hall.
  induction Hall as [|s l Hs _ IH]; intros j acc Hj Hlen Hacc.
  - cbn [fold_left List.length Z.of_nat]. now rewrite Z.add_0_r.
  - cbn [fold_left]. rewrite length_cons, Nat2Z.inj_succ in *.
    replace (j + Z.succ (Z.of_nat (List.length l)))%Z
      with ((j + 1) + Z.of_nat (List.length l))%Z by lia.
    apply IH; [lia|lia|].
    apply (between_equiv (add (JS.of_Z (lo * j)) (JS.of_Z lo)) _
                         (add (JS.of_Z (hi * j)) (JS.of_Z hi)) _).
    + replace (lo * (j + 1))%Z with (lo * j + lo)%Z by ring.
      apply add_Z. nia.
    + replace (hi * (j + 1))%Z with (hi * j + hi)%Z by ring.
      apply add_Z. nia.
    + apply add_between; [assumption|assumption|reflexivity].
Qed.

(** The mean of a non-empty array of fewer than [2^32] numbers, each
    between the integers [lo] and [hi], is between [lo] and [hi]. *)
Lemma mean_between {A : Type} (f : A -> JS.num) (lo hi : Z) (l : list A) :
  (Z.abs lo <= 2 ^ 20)%Z -> (Z.abs hi <= 2 ^ 20)%Z ->
  l <> [] -> (Z.of_nat (List.length l) < 2 ^ 32)%Z ->
  Forall (fun s => between (JS.of_Z lo) (JS.of_Z hi) (f s)) l ->
  between (JS.of_Z lo) (JS.of_Z hi)
    (div (fold_left (fun sum s => add sum (f s)) l $0)
         (JS.of_nat (List.length l))).
Proof.
  intros Hlo Hhi Hne Hlen Hall.
  pose proof (length_pos l Hne) as Hn.
  pose proof (of_nat_pos _ Hn) as Hpos.
  pose proof (reduce_between f lo hi l Hlo Hhi Hall 0 $0
                ltac:(lia) ltac:(lia)) as Hsum.
  rewrite !Z.mul_0_r, Z.add_0_l in Hsum.
  specialize (Hsum (between_refl $0 eq_refl)).
  apply (div_length_between _ _ _ _ Hn) in Hsum.
  revert Hsum. apply between_equiv.
  - unfold div, JS.of_Z. rewrite fin_div_length by assumption.
    cbn [rounded]. rewrite <- (rnd_Z lo) by lia.
    rewrite (rnd_comp _ (inject_Z lo)); [reflexivity|].
    rewrite inject_Z_mult. field. lra.
  - unfold div, JS.of_Z. rewrite fin_div_length by assumption.
    cbn [rounded]. rewrite <- (rnd_Z hi) by lia.
    rewrite (rnd_comp _ (inject_Z hi)); [reflexivity|].
    rewrite inject_Z_mult. field. lra.
Qed.

(** A percentage of the elements of a non-empty array is between 0 and
    100. *)
Lemma percentage_between (c n : nat) :
  (c <= n)%nat -> (0 < n)%nat ->
  between $0 $100 (mul (div (JS.of_nat c) (JS.of_nat n)) $100).
Proof.
  intros Hc Hn. pose proof (of_nat_pos n Hn) as Hpos.
  assert (Hratio : between $0 $1 (div (JS.of_nat c) (JS.of_nat n))).
  { assert (H : between (JS.of_nat 0) (JS.of_nat n) (JS.of_nat c)).
    { unfold between, JS.of_nat, JS.of_Z, JS.le.
      rewrite !le_of_Z. split; apply Z.leb_le; lia. }
    apply (div_length_between _ _ _ _ Hn) in H.
    revert H. apply between_equiv.
    - unfold div, JS.of_nat at 1, JS.of_Z. rewrite fin_div_length by assumption.
      cbn [rounded]. rewrite (rnd_comp _ 0); [reflexivity|].
      change (inject_Z (Z.of_nat 0)) with 0. field. lra.
    - unfold div, JS.of_nat at 1, JS.of_Z. rewrite fin_div_length by assumption.
      cbn [rounded]. rewrite (rnd_comp _ 1); [reflexivity|].
      field. lra. }
  apply (mul_between _ _ _ $100) in Hratio; [|reflexivity|reflexivity].
  exact Hratio.
Qed.

End OperationsOrder.

(* ================================================================== *)
(** * The formulas of the risk scorer, in double precision *)
(* ================================================================== *)

Section RiskFormula64.

Import F64.

Lemma between_is_finite (lo hi x : JS.num) :
  between lo hi x -> JS.is_finite lo = true -> JS.is_finite hi = true ->
  JS.is_finite x = true.
Proof. intros [H1 H2]. destruct lo, hi, x; cbn in *; congruence. Qed.

Lemma add_not_nan_r (x y : JS.num) :
  JS.is_nan x = false -> JS.is_finite y = true ->
  JS.is_nan (add x y) = false.
Proof.
  intros Hx Hy. unfold add. rewrite rounded_nan.
  now apply add_not_nan_finite.
Qed.

Lemma add_not_nan_l (x y : JS.num) :
  JS.is_finite x = true -> JS.is_nan y = false ->
  JS.is_nan (add x y) = false.
Proof.
  intros Hx Hy. unfold add. rewrite rounded_nan.
  destruct x, y; cbn in *; congruence.
Qed.

Lemma sub_not_nan_l (x y : JS.num) :
  JS.is_finite x = true -> JS.is_nan y = false ->
  JS.is_nan (sub x y) = false.
Proof.
  intros Hx Hy. unfold sub. rewrite rounded_nan.
  destruct x, y; cbn in *; congruence.
Qed.

Lemma mul_not_nan (x k : JS.num) :
  JS.is_nan x = false -> JS.is_finite k = true -> JS.lt $0 k = true ->
  JS.is_nan (mul x k) = false.
Proof.
  intros Hx Hk Hpos. unfold mul. rewrite rounded_nan.
  now apply mul_not_nan_pos.
Qed.

Lemma div_length_not_nan64 (x : JS.num) (n : nat) :
  (0 < n)%nat -> JS.is_nan x = false ->
  JS.is_nan (div x (JS.of_nat n)) = false.
Proof.
  intros Hn Hx. unfold div. rewrite rounded_nan.
  now apply div_length_not_nan.
Qed.

(** A sum of finite numbers is a number: an overflow gives an infinity,
    and a finite term never cancels it. *)
Lemma reduce_not_nan {A : Type} (f : A -> JS.num) (l : list A) :
  Forall (fun s => JS.is_finite (f s) = true) l ->
  forall acc : JS.num,
    JS.is_nan acc = false ->
    JS.is_nan (fold_left (fun sum s => add sum (f s)) l acc) = false.
Proof.
  induction 1 as [|s l Hs _ IH]; intros acc Hacc; cbn [fold_left].
  - assumption.
  - apply IH. now apply add_not_nan_r.
Qed.

(** A sum of numbers that are not negative is not negative; it may be
    [Infinity]. *)
Lemma reduce_not_negative {A : Type} (f : A -> JS.num) (l : list A) :
  Forall (fun s => between $0 JS.PInf (f s)) l ->
  forall acc : JS.num,
    between $0 JS.PInf acc ->
    between $0 JS.PInf (fold_left (fun sum s => add sum (f s)) l acc).
Proof.
  induction 1 as [|s l Hs _ IH]; intros acc Hacc; cbn [fold_left].
  - assumption.
  - apply IH.
    change (between ($0 + $0)%f64 (JS.PInf + JS.PInf)%f64 (acc + f s)%f64).
    apply (add_between $0 JS.PInf $0 JS.PInf acc (f s) Hacc Hs).
    reflexivity.
Qed.

Lemma fold_left_map {A : Type} (f : A -> JS.num) (l : list A) (acc : JS.num) :
  fold_left (fun sum s => add sum (f s)) l acc
  = fold_left add (map f l) acc.
Proof.
  revert acc. induction l as [|a l IH]; intros acc; cbn [fold_left map];
    [reflexivity|apply IH].
Qed.

Lemma rnd_0 (q : Q) : q == 0 -> rnd q = $0.
Proof. intros H. now rewrite (rnd_comp q 0 H). Qed.

(** The utilization of a record whose catch is not negative. *)
Lemma utilization_not_negative (r : Risk.StockRecord) :
  Risk.numeric r -> Risk.valid_msy r -> Risk64.catch_not_negative r ->
  between $0 JS.PInf
    (Risk.current_catch_tonnes r / Risk.msy_tonnes r * $100)%f64.
Proof.
  intros [_ Hc] Hm Hpos.
  unfold Risk.valid_msy, JS.gt, Risk64.catch_not_negative in *.
  destruct (Risk.current_catch_tonnes r) as [| | |c]; try discriminate.
  assert (Hratio : between $0 JS.PInf ($c / Risk.msy_tonnes r)%f64).
  { destruct (Risk.msy_tonnes r) as [| | |m]; try discriminate.
    - split; reflexivity.
    - cbn in Hm, Hpos. qprop. unfold div. rewrite fin_div by lra.
      cbn [rounded]. split; [|apply le_PInf, rnd_not_nan].
      change $0 with (rnd 0). apply rnd_mono.
      apply Qle_shift_div_l; lra. }
  change (between ($0 * $100)%f64 (JS.PInf * $100)%f64
                  ($c / Risk.msy_tonnes r * $100)%f64).
  apply (mul_between $0 JS.PInf ($c / Risk.msy_tonnes r)%f64 $100 Hratio);
    reflexivity.
Qed.

Section Valid64.

Variable rs : list Risk.StockRecord.
Hypothesis Hne : rs <> [].
Hypothesis Hnum : Forall Risk.numeric rs.
Hypothesis Hmsy : Forall Risk.valid_msy rs.
Hypothesis Hcatch : Forall Risk64.catch_not_negative rs.

Lemma avgStockHealth_not_nan : JS.is_nan (Risk64.avgStockHealth rs) = false.
Proof.
  unfold Risk64.avgStockHealth, Risk.len.
  apply div_length_not_nan64; [now apply length_pos|].
  apply reduce_not_nan; [|reflexivity].
  eapply Forall_impl; [|exact Hnum]. now intros r [H _].
Qed.

Lemma msyPressureScore_between :
  between $0 $120 (Risk64.msyPressureScore rs).
Proof.
  assert (H : between $0 JS.PInf (Risk64.avgMSY rs)).
  { unfold Risk64.avgMSY, Risk.len.
    pose proof (length_pos rs Hne) as Hn.
    pose proof (of_nat_pos _ Hn) as Hpos.
    assert (Hsum : between $0 JS.PInf
              (fold_left
                 (fun sum s =>
                    sum + Risk.current_catch_tonnes s / Risk.msy_tonnes s
                          * $100)%f64 rs $0)).
    { apply (reduce_not_negative
               (fun s => Risk.current_catch_tonnes s / Risk.msy_tonnes s
                         * $100)%f64);
        [|split; reflexivity].
      rewrite Forall_forall in *. intros r Hr.
      apply utilization_not_negative; auto. }
    apply (div_length_between _ _ _ _ Hn) in Hsum.
    destruct Hsum as [H1 H2]. split; [|apply le_PInf; eauto using le_not_nan_r].
    revert H1. unfold div at 1, JS.of_nat, JS.of_Z.
    rewrite fin_div by lra. cbn [rounded].
    rewrite rnd_0; [trivial|]. field. lra. }
  unfold Risk64.msyPressureScore.
  destruct H as [H1 H2].
  destruct (Risk64.avgMSY rs) as [| | |q]; try discriminate.
  - split; reflexivity.
  - cbn in H1. unfold JS.min, JS.le. qprop.
    destruct (Qle_bool q 120) eqn:E; split; cbn; qprop;
      try apply Qle_bool_iff; lra.
Qed.

Lemma decliningPercent_between :
  between $0 $100 (Risk64.decliningPercent rs).
Proof.
  unfold Risk64.decliningPercent, Risk.len, Risk.decliningCount.
  apply percentage_between; [apply filter_length_le|now apply length_pos].
Qed.

Lemma climateScore_between (sst : JS.num) :
  between $20 $90 (Risk.climateScore sst).
Proof.
  unfold Risk.climateScore.
  destruct (sst >? $30)%js, (sst >? $28)%js, (sst >? $26)%js;
    split; reflexivity.
Qed.

Lemma sustainabilityIndex_not_nan (sst : JS.num) :
  JS.is_nan (Risk64.sustainabilityIndex rs sst) = false.
Proof.
  unfold Risk64.sustainabilityIndex.
  pose proof msyPressureScore_between as Hp.
  pose proof decliningPercent_between as Hd.
  pose proof (climateScore_between sst) as Hc.
  pose proof (between_refl $100 eq_refl) as H100.
  pose proof (mul_between _ _ _ $0.25
                (sub_between _ _ _ _ _ _ H100 Hp eq_refl)
                eq_refl eq_refl) as HB.
  pose proof (mul_between _ _ _ (lit 0.15)
                (sub_between _ _ _ _ _ _ H100 Hd eq_refl)
                eq_refl eq_refl) as HC.
  pose proof (mul_between _ _ _ (lit 0.10)
                (sub_between _ _ _ _ _ _ H100 Hc eq_refl)
                eq_refl eq_refl) as HD.
  repeat apply add_not_nan_r.
  - apply mul_not_nan; [apply avgStockHealth_not_nan|reflexivity..].
  - apply (between_is_finite _ _ _ HB); vm_compute; reflexivity.
  - apply (between_is_finite _ _ _ HC); vm_compute; reflexivity.
  - apply (between_is_finite _ _ _ HD); vm_compute; reflexivity.
Qed.

Lemma collapseRisk_not_nan (sst : JS.num) :
  JS.is_nan (Risk64.collapseRisk rs sst) = false.
Proof.
  unfold Risk64.collapseRisk.
  pose proof msyPressureScore_between as Hp.
  pose proof decliningPercent_between as Hd.
  pose proof (climateScore_between sst) as Hc.
  pose proof (mul_between _ _ _ (lit 0.35) Hp eq_refl eq_refl) as H1.
  pose proof (mul_between _ _ _ $0.25 Hd eq_refl eq_refl) as H2.
  pose proof (add_between _ _ _ _ _ _ H1 H2 eq_refl) as H12.
  pose proof (mul_between _ _ _ (lit 0.15) Hc eq_refl eq_refl) as H4.
  apply add_not_nan_r; [apply add_not_nan_l|].
  - apply (between_is_finite _ _ _ H12); vm_compute; reflexivity.
  - apply mul_not_nan; [|reflexivity..].
    apply sub_not_nan_l; [reflexivity|apply avgStockHealth_not_nan].
  - apply (between_is_finite _ _ _ H4); vm_compute; reflexivity.
Qed.

End Valid64.

Lemma finalIndex_spec (rs : list Risk.StockRecord) (sst : JS.num) :
  Risk64.finalIndex rs sst = Spec64.sustainabilityIndex rs sst.
Proof.
  unfold Risk64.finalIndex. rewrite clamp_round.
  unfold Spec64.sustainabilityIndex, Spec64.mean, Spec64.percentage.
  cbv zeta. rewrite <- !fold_left_map, !length_map. reflexivity.
Qed.

Lemma finalCollapseRisk_spec (rs : list Risk.StockRecord) (sst : JS.num) :
  Risk64.finalCollapseRisk rs sst = Spec64.collapseRisk rs sst.
Proof.
  unfold Risk64.finalCollapseRisk. rewrite clamp_round.
  unfold Spec64.collapseRisk, Spec64.mean, Spec64.percentage.
  cbv zeta. rewrite <- !fold_left_map, !length_map. reflexivity.
Qed.

(** The scenario of the specification: every stock fished at its
    maximum sustainable yield. *)
Example scenario_full_use64 :
  Risk64.finalIndex [Examples.full_use; Examples.full_use] $27 = $61 /\
  Risk64.finalCollapseRisk [Examples.full_use; Examples.full_use] $27 = $46.
Proof. split; vm_compute; reflexivity. Qed.

(** Rounding decides the score next to a half: the weighted sum of the
    first stock is 18.499999999999996 where the exact sum is 18.5, that
    of the second 60.49999999999999 where the exact sum is 60.5. *)
Example rounding_below_a_half :
  Risk64.finalIndex [Examples.stock $0 $110 $100 "Stable"] $27 = $18 /\
  Risk.finalIndex [Examples.stock $0 $110 $100 "Stable"] $27 = $19 /\
  Risk64.finalCollapseRisk [Examples.stock $43 $115 $100 "Stable"] $27
    = $60 /\
  Risk.finalCollapseRisk [Examples.stock $43 $115 $100 "Stable"] $27 = $61.
Proof. repeat split; vm_compute; reflexivity. Qed.

(** C4, as the specification states it, fails: two records with
    [msy_tonnes > 0] whose catches overflow to the two infinities give an
    index and a risk that are [NaN]. *)
Lemma scoreRisk_not_a_number :
  Forall Risk.valid_msy [Examples64.overfished; Examples64.restocked] /\
  Forall Risk.numeric [Examples64.overfished; Examples64.restocked] /\
  get "sustainability_index"
      (Risk64.scoreRisk None [Examples64.overfished; Examples64.restocked]
                        $27)
  = Some (JNum JS.NaN) /\
  get "collapse_risk"
      (Risk64.scoreRisk None [Examples64.overfished; Examples64.restocked]
                        $27)
  = Some (JObj [("score", JNum JS.NaN); ("level", JStr "Moderate")]).
Proof.
  split; [|split; [|split]].
  - repeat constructor.
  - repeat constructor.
  - vm_compute. reflexivity.
  - vm_compute. reflexivity.
Qed.

(** C4. On a non-empty list of records with numeric columns,
    [msy_tonnes > 0] and a catch that is not negative, the
    sustainability index and the collapse risk of the response are the
    rounded, clamped weighted sums of the specification, every
    operation in double precision, where the pressure score is the mean
    MSY utilization capped at 120 and the declining percentage counts
    the trends Declining and Critical; both are integers between 0 and
    100. *)
Theorem scoreRisk_formula
    (regionQuery : option string) (rs : list Risk.StockRecord)
    (sst : JS.num) :
  rs <> [] -> Forall Risk.numeric rs -> Forall Risk.valid_msy rs ->
  Forall Risk64.catch_not_negative rs ->
  get "sustainability_index" (Risk64.scoreRisk regionQuery rs sst)
    = Some (JNum (Spec64.sustainabilityIndex rs sst)) /\
  get "collapse_risk" (Risk64.scoreRisk regionQuery rs sst)
    = Some (JObj [("score", JNum (Spec64.collapseRisk rs sst));
                  ("level",
                   JStr (Risk.riskLevel (Spec64.collapseRisk rs sst)))]) /\
  JS.int_in 0 100 (Spec64.sustainabilityIndex rs sst) /\
  JS.int_in 0 100 (Spec64.collapseRisk rs sst).
Proof.
  intros Hne Hnum Hmsy Hcatch.
  rewrite <- finalIndex_spec, <- finalCollapseRisk_spec.
  repeat split.
  - destruct rs; [congruence|reflexivity].
  - destruct rs; [congruence|reflexivity].
  - apply clamped_int. now apply sustainabilityIndex_not_nan.
  - apply clamped_int. now apply collapseRisk_not_nan.
Qed.

Lemma scoreRisk_formula_witness :
  get "sustainability_index"
      (Risk64.scoreRisk None [Examples.stock $0 $110 $100 "Stable"] $27)
  = Some (JNum (Spec64.sustainabilityIndex
                  [Examples.stock $0 $110 $100 "Stable"] $27))
  /\ Spec64.sustainabilityIndex [Examples.stock $0 $110 $100 "Stable"] $27
     = $18.
Proof.
  split.
  - apply (scoreRisk_formula None [Examples.stock $0 $110 $100 "Stable"] $27).
    + discriminate.
    + repeat constructor.
    + repeat constructor.
    + repeat constructor.
  - vm_compute. reflexivity.
Defined.

End RiskFormula64.

(* ================================================================== *)
(** * The sustainability index grows with the stock health *)
(* ================================================================== *)

Section Monotone.

Import Risk.








Section Raised.

Variables rs rs' : list StockRecord.
Hypothesis Hraised : Forall2 health_raised rs rs'.






End Raised.

Example healthier_stock_scores_higher :
  finalIndex [Examples.full_use; Examples.stock $40 $100 $100 "Stable"] $27
    = $51 /\
  finalIndex (update_health 1 $90
                [Examples.full_use; Examples.stock $40 $100 $100 "Stable"])
             $27 = $64.
Proof. split; reflexivity. Qed.



End Monotone.

(* ================================================================== *)
(** * The sustainability score of the species list *)
(* ================================================================== *)



Section SustainabilityScore.

Import Fisheries.


Example scenario_score :
  calculateSustainabilityScore [Examples.mackerel; Examples.hilsa]
                               Examples.calm = $83.
Proof. reflexivity. Qed.

End SustainabilityScore.

Section SustainabilityScore64.

Import F64.

Lemma calculateSustainabilityScore_cons
    (s : Fisheries.Species) (l : list Fisheries.Species)
    (cd : Fisheries.CurrentData) :
  Fisheries64.calculateSustainabilityScore (s :: l) cd
  = Spec64.sustainabilityScore (s :: l) cd.
Proof.
  unfold Fisheries64.calculateSustainabilityScore, Spec64.sustainabilityScore,
    Spec64.mean, Spec64.percentage.
  cbn [List.length Nat.eqb]. cbv zeta.
  rewrite <- !fold_left_map, !length_map. reflexivity.
Qed.

(** The score of the two species of the examples, and a list of twelve
    whose weighted sum is 43.49999999999999 where the exact sum is
    43.5. *)
Example scenario_score64 :
  Fisheries64.calculateSustainabilityScore
    [Examples.mackerel; Examples.hilsa] Examples.calm = $83 /\
  Fisheries64.calculateSustainabilityScore
    Examples64.twelve_species Examples.calm = $43 /\
  Fisheries.calculateSustainabilityScore
    Examples64.twelve_species Examples.calm = $44.
Proof. repeat split; vm_compute; reflexivity. Qed.

(** The mean stock health of species whose stock health is between 0
    and 100. *)
Lemma avgStockHealth_between (l : list Fisheries.Species) :
  l <> [] -> array_length l -> Forall Spec.health_in_range l ->
  between $0 $100
    (fold_left (fun acc s => acc + Fisheries.stock_health s)%f64 l $0
     / JS.of_nat (List.length l))%f64.
Proof.
  intros Hne Hlen Hall.
  apply (mean_between Fisheries.stock_health 0 100 l);
    [lia|lia|assumption|assumption|].
  eapply Forall_impl; [|exact Hall]. intros s [H1 H2]. now split.
Qed.

(** C8. The score of the empty list is 0.  The score of a non-empty list
    is [round(avgStockHealth*0.4 + tempScore*0.4 + waveScore*0.2)],
    every operation in double precision, where [tempScore] is the
    percentage of species whose temperature range contains the
    sea-surface temperature and [waveScore] the percentage whose wave
    limit is at least the wave height; it is an integer between 0 and
    100 when every stock health is between 0 and 100 (the list being an
    array, of fewer than [2^32] elements). *)
Theorem calculateSustainabilityScore_spec
    (speciesList : list Fisheries.Species) (cd : Fisheries.CurrentData) :
  Fisheries64.calculateSustainabilityScore [] cd = $0 /\
  (speciesList <> [] ->
     Fisheries64.calculateSustainabilityScore speciesList cd
     = Spec64.sustainabilityScore speciesList cd) /\
  (speciesList <> [] -> array_length speciesList ->
   Forall Spec.health_in_range speciesList ->
     JS.int_in 0 100
       (Fisheries64.calculateSustainabilityScore speciesList cd)).
Proof.
  split; [reflexivity|]. split.
  - destruct speciesList as [|s l]; [congruence|]. intros _.
    apply calculateSustainabilityScore_cons.
  - intros Hne Hlen Hrange.
    pose proof (length_pos speciesList Hne) as Hn.
    unfold Fisheries64.calculateSustainabilityScore.
    destruct (List.length speciesList =? 0)%nat eqn:E;
      [apply Nat.eqb_eq in E; lia|]. cbv zeta.
    pose proof (avgStockHealth_between speciesList Hne Hlen Hrange) as Ha.
    pose proof (percentage_between
                  (List.length (filter (fun s =>
                     (Fisheries.sea_surface_temp cd
                      >=? fst (Fisheries.temp_range s))%js
                     && (Fisheries.sea_surface_temp cd
                         <=? snd (Fisheries.temp_range s))%js)
                     speciesList))
                  (List.length speciesList)
                  (filter_length_le _ _) Hn) as Ht.
    pose proof (percentage_between
                  (List.length (filter (fun s =>
                     (Fisheries.wave_height cd
                      <=? Fisheries.max_wave_height s)%js) speciesList))
                  (List.length speciesList)
                  (filter_length_le _ _) Hn) as Hw.
    apply (mul_between _ _ _ (lit 0.4)) in Ha; [|reflexivity..].
    apply (mul_between _ _ _ (lit 0.4)) in Ht; [|reflexivity..].
    apply (mul_between _ _ _ (lit 0.2)) in Hw; [|reflexivity..].
    pose proof (add_between _ _ _ _ _ _
                  (add_between _ _ _ _ _ _ Ha Ht eq_refl) Hw eq_refl)
      as Htotal.
    apply round_between in Htotal.
    apply (between_int 0 100).
    revert Htotal. apply between_equiv; vm_compute; reflexivity.
Qed.

Lemma calculateSustainabilityScore_spec_witness :
  JS.int_in 0 100
    (Fisheries64.calculateSustainabilityScore
       Examples64.twelve_species Examples.calm).
Proof.
  apply (calculateSustainabilityScore_spec
           Examples64.twelve_species Examples.calm).
  - discriminate.
  - reflexivity.
  - unfold Spec.health_in_range. repeat constructor.
Defined.

End SustainabilityScore64.

(* ================================================================== *)
(** * Descriptive statistics *)
(* ================================================================== *)

Section Statistics.

Import Anomaly.
Import F64.










Variable sqrt : JS.num -> JS.num.

Example stats_of_an_outlier :
  mean (computeStats sqrt Examples64.outlier_series "WTMP") = $18 /\
  min (computeStats sqrt Examples64.outlier_series "WTMP") = $10 /\
  max (computeStats sqrt Examples64.outlier_series "WTMP") = $50.
Proof. repeat split; vm_compute; reflexivity. Qed.


End Statistics.

(** With the square root of the variance 256, the reading of 50 is two
    standard deviations from the mean: one moderate anomaly. *)
Example anomalies_of_an_outlier :
  Anomaly.anomalyCount
    (Anomaly.computeStats Examples64.isqrt Examples64.outlier_series "WTMP")
  = 1%nat.
Proof. vm_compute. reflexivity. Qed.



(* ================================================================== *)
(** * The region filter and the climate signal of [/api/fisheries] *)
(* ================================================================== *)

Section RegionFilter.

Import Risk.

Variable toLowerCase : string -> string.

Lemma on_data_selected
    (rq : option string) (results : list StockRecord) (r : StockRecord) :
  on_data toLowerCase rq results r
  = results ++ (if Notions.selected toLowerCase rq r then [r] else []).
Proof.
  unfold on_data, Notions.selected.
  destruct (falsy rq || _); [reflexivity|now rewrite app_nil_r].
Qed.

Lemma on_data_fold
    (rq : option string) (rows results : list StockRecord) :
  fold_left (on_data toLowerCase rq) rows results
  = results ++ filter (Notions.selected toLowerCase rq) rows.
Proof.
  revert results. induction rows as [|r rows IH]; intros results;
    cbn [fold_left filter].
  - now rewrite app_nil_r.
  - rewrite IH, on_data_selected, <- app_assoc.
    now destruct (Notions.selected toLowerCase rq r).
Qed.

Lemma filter_all {A : Type} (p : A -> bool) (l : list A) :
  (forall x, p x = true) -> filter p l = l.
Proof.
  intros Hp. induction l as [|a l IH]; [reflexivity|].
  cbn [filter]. now rewrite Hp, IH.
Qed.

(** X1. The records that the handler scores are the rows of the file whose
    lower-cased region is the lower-cased region asked for, in the order
    of the file; without a region (or with an empty one) they are all the
    rows; and the response lists exactly these records. *)
Theorem fisheries_region_filter
    (region : option string) (sstRes : option (list (option JS.num)))
    (rows : list StockRecord) :
  let rq := regionQuery toLowerCase region in
  let results := fold_left (on_data toLowerCase rq) rows [] in
  results = filter (Notions.selected toLowerCase rq) rows /\
  (falsy rq = true -> results = rows) /\
  (forall q r, rq = Some q -> q <> "" -> In r results ->
     toLowerCase (Risk.region r) = q) /\
  (results <> [] ->
     get "data" (snd (fisheries toLowerCase region sstRes (Some rows)))
     = Some (JArr (map record_json results))).
Proof.
  intros rq results.
  assert (Hres : results = filter (Notions.selected toLowerCase rq) rows)
    by apply on_data_fold.
  split; [exact Hres|]. split; [|split].
  - intros Hfalsy. rewrite Hres. apply filter_all.
    intros r. unfold Notions.selected. now rewrite Hfalsy.
  - intros q r Hq Hne Hin. rewrite Hres in Hin.
    apply filter_In in Hin. destruct Hin as [_ Hsel].
    unfold Notions.selected in Hsel. rewrite Hq in Hsel. cbn [falsy] in Hsel.
    destruct (String.eqb_spec q ""); [contradiction|].
    cbn [orb] in Hsel. now apply String.eqb_eq.
  - intros Hne. unfold fisheries. cbv zeta.
    fold rq. fold results. cbn [snd]. unfold scoreRisk.
    destruct results; [congruence|]. reflexivity.
Qed.

End RegionFilter.

Lemma fisheries_region_filter_witness :
  fold_left (Risk.on_data Examples.ascii_lower
               (Risk.regionQuery Examples.ascii_lower (Some "")))
            [Examples.full_use; Examples.no_msy_catch] []
  = [Examples.full_use; Examples.no_msy_catch].
Proof.
  apply (fisheries_region_filter Examples.ascii_lower (Some "") None
           [Examples.full_use; Examples.no_msy_catch]).
  reflexivity.
Defined.

Section ClimateSignal.

Import Risk.

Lemma validSst_map_Some (l : list JS.num) :
  Notions.validSst (map Some l) = l.
Proof.
  induction l as [|a l IH]; [reflexivity|].
  unfold Notions.validSst in *. cbn [map flat_map app]. now rewrite IH.
Qed.

(** X2. When the request for the sea-surface temperature fails the signal is
    28.5 for every region; when it answers without a reading the signal
    is 28.5, and 31 for the region [indian ocean]; [null] readings are
    left out of the average. *)
Theorem sst_avg_fallback
    (rq : option string) (sstData : list (option JS.num)) :
  sst_avg rq None = $28.5 /\
  (Notions.validSst sstData = [] ->
     JS.equiv (sst_avg rq (Some sstData)) $(28.5 + Notions.warming rq)) /\
  sst_avg rq (Some sstData)
  = sst_avg rq (Some (map Some (Notions.validSst sstData))).
Proof.
  split; [reflexivity|]. split.
  - intros Hnone. unfold sst_avg, Notions.warming.
    fold (Notions.validSst sstData).
    rewrite Hnone. cbn [List.length Nat.ltb Nat.leb].
    destruct rq as [q|]; [destruct (String.eqb q "indian ocean")|];
      cbn [JS.add JS.equiv]; lra.
  - unfold sst_avg. fold (Notions.validSst sstData).
    fold (Notions.validSst (map Some (Notions.validSst sstData))).
    now rewrite validSst_map_Some.
Qed.

Lemma sst_avg_fallback_witness :
  JS.equiv (sst_avg (Some "indian ocean") (Some [None; None]))
           $(28.5 + Notions.warming (Some "indian ocean")).
Proof.
  apply (sst_avg_fallback (Some "indian ocean") [None; None]). reflexivity.
Defined.

End ClimateSignal.

Section ClimateSignal64.

Import F64.

Lemma validSst_length (sstData : list (option JS.num)) :
  (List.length (Notions.validSst sstData) <= List.length sstData)%nat.
Proof.
  unfold Notions.validSst.
  induction sstData as [|[x|] l IH]; cbn [flat_map app List.length]; lia.
Qed.

(** A whole number and a half is a double. *)
Lemma add_warming (m : Z) :
  (Z.abs m <= 2 ^ 20)%Z ->
  JS.equiv (JS.of_Z m + $2.5)%f64 $(inject_Z m + 2.5).
Proof.
  intros Hm. unfold add, JS.of_Z. cbn [JS.add rounded].
  assert (E : inject_Z m + 2.5 == inject_Z (2 * m + 5) * pow2 (-1)).
  { rewrite inject_Z_plus, inject_Z_mult. change (pow2 (-1)) with (1 # 2).
    change (inject_Z 2) with 2. change (inject_Z 5) with 5. lra. }
  rewrite (rnd_comp _ _ E).
  transitivity $(inject_Z (2 * m + 5) * pow2 (-1)); [|cbn; now symmetry].
  apply rnd_dyadic; [lia|lia|].
  apply Qlt_trans with (inject_Z (2 ^ 53) * pow2 (-1)).
  - apply Qmult_lt_compat_r; [apply pow2_pos|].
    rewrite <- Zlt_Qlt. lia.
  - vm_compute. reflexivity.
Qed.

(** X3. With at least one reading, and every reading between the whole
    numbers [lo] and [hi] (of magnitude [2^20] at most), the climate
    signal computed in double precision is between [lo] and [hi],
    raised by 2.5 for the region [indian ocean]. *)
Theorem sst_avg_bounds
    (rq : option string) (sstData : list (option JS.num)) (lo hi : Z) :
  Notions.validSst sstData <> [] -> array_length sstData ->
  (Z.abs lo <= 2 ^ 20)%Z -> (Z.abs hi <= 2 ^ 20)%Z ->
  Forall (between (JS.of_Z lo) (JS.of_Z hi)) (Notions.validSst sstData) ->
  between $(inject_Z lo + Notions.warming rq)
          $(inject_Z hi + Notions.warming rq)
          (Risk64.sst_avg rq (Some sstData)).
Proof.
  intros Hne Hlen Hlo Hhi Hall. unfold Risk64.sst_avg.
  fold (Notions.validSst sstData).
  pose proof (length_pos _ Hne) as Hn.
  destruct (0 <? List.length (Notions.validSst sstData))%nat eqn:E;
    [|apply Nat.ltb_ge in E; lia].
  assert (Hvalid : array_length (Notions.validSst sstData)).
  { unfold array_length in *. pose proof (validSst_length sstData). lia. }
  pose proof (mean_between (fun v => v) lo hi (Notions.validSst sstData)
                Hlo Hhi Hne Hvalid Hall) as Hmean.
  change (fold_left (fun sum s => sum + s)%f64
            (Notions.validSst sstData) $0)
    with (fold_left add (Notions.validSst sstData) $0) in Hmean.
  assert (Hcold : between $(inject_Z lo + 0) $(inject_Z hi + 0)
                    (fold_left add (Notions.validSst sstData) $0
                     / JS.of_nat (List.length (Notions.validSst sstData)))%f64).
  { revert Hmean. apply between_equiv; unfold JS.of_Z, JS.equiv; ring. }
  unfold Notions.warming.
  destruct rq as [q|]; [destruct (String.eqb q "indian ocean")|];
    try exact Hcold.
  pose proof (add_between _ _ _ _ _ _ Hmean (between_refl $2.5 eq_refl)
                eq_refl) as Hwarm.
  revert Hwarm. apply between_equiv; now apply add_warming.
Qed.

Lemma sst_avg_bounds_witness :
  between $(inject_Z 27 + Notions.warming (Some "indian ocean"))
          $(inject_Z 28 + Notions.warming (Some "indian ocean"))
          (Risk64.sst_avg (Some "indian ocean")
                          (Some [Some $27; None; Some $28])).
Proof.
  apply (sst_avg_bounds (Some "indian ocean")
           [Some $27; None; Some $28] 27 28).
  - discriminate.
  - reflexivity.
  - lia.
  - lia.
  - repeat constructor.
Defined.

(** Between bounds that are not whole numbers the mean need not stay:
    that of six readings of 20.1 is 20.099999999999998, below every
    reading. *)
Example mean_below_every_reading :
  (Risk64.sst_avg None
     (Some (map (fun _ => Some (lit 20.1)) (seq 0 6)))
   <? lit 20.1)%js = true.
Proof. vm_compute. reflexivity. Qed.

(** Rounding moves a mean across a threshold of the climate score: four
    readings whose exact mean is 26 have the mean 26.000000000000004,
    in the band above. *)
Example rounding_moves_the_band :
  Risk.climateScore
    (Risk64.sst_avg None
       (Some [Some (lit 24.0); Some (lit 24.7); Some (lit 27.6);
              Some (lit 27.7)])) = $40 /\
  Risk.climateScore
    (Risk.sst_avg None
       (Some [Some $24.0; Some $24.7; Some $27.6; Some $27.7])) = $20.
Proof. split; vm_compute; reflexivity. Qed.

(** The mean of 28.4 and 28.5 is the double below 28.45, and the
    response reports 28.4. *)
Example reported_signal :
  get "climate_stress"
      (Risk64.scoreRisk None [Examples.full_use]
         (Risk64.sst_avg None (Some [Some (lit 28.4); Some (lit 28.5)])))
  = Some (JObj [("sst", JNum (lit 28.4)); ("score", JNum $60)]).
Proof. vm_compute. reflexivity. Qed.

End ClimateSignal64.

(* ================================================================== *)
(** * The projection, the levels and the trends of the risk scorer *)
(* ================================================================== *)


Lemma max0_of_Z (k : Z) : JS.max $0 (JS.of_Z k) = JS.of_Z (Z.max 0 k).
Proof.
  unfold JS.max, JS.of_Z, JS.le. change 0 with (inject_Z 0).
  rewrite le_of_Z. destruct (k <=? 0)%Z eqn:E.
  - apply Z.leb_le in E. now rewrite Z.max_l by lia.
  - apply Z.leb_gt in E. now rewrite Z.max_r by lia.
Qed.


Section Projection64.

Import F64.

(** The projection of every index and every risk from 0 to 100,
    computed. *)
Lemma projection_checked :
  forallb (fun i =>
    forallb (fun r =>
      match Risk64.projected (JS.of_Z i) (JS.of_Z r) with
      | JS.Fin p =>
          match (JS.Fin p - JS.of_Z i)%f64 with
          | JS.Fin d =>
              let c := Qfloor (d + (1 # 2)) in
              let m := Z.max 0 (Qfloor (p + (1 # 2))) in
              (-5 <=? c)%Z && (c <=? 0)%Z && (m =? Z.max 0 (i + c))%Z
              && (0 <=? m)%Z && (m <=? i)%Z
          | _ => false
          end
      | _ => false
      end) (map Z.of_nat (seq 0 101))) (map Z.of_nat (seq 0 101)) = true.
Proof. vm_compute. reflexivity. Qed.

Lemma in_range (z : Z) :
  (0 <= z <= 100)%Z -> In z (map Z.of_nat (seq 0 101)).
Proof.
  intros H. apply in_map_iff. exists (Z.to_nat z). split; [lia|].
  apply in_seq. lia.
Qed.

Lemma scoreRisk_projection
    (rq : option string) (rs : list Risk.StockRecord) (sst : JS.num) :
  rs <> [] ->
  get "projection" (Risk64.scoreRisk rq rs sst)
  = Some (JObj
      [("index_6_month",
        JNum (JS.max $0 (JS.round (Risk64.projectedIndex rs sst))));
       ("change",
        JNum (JS.round (Risk64.projectedIndex rs sst
                        - Risk64.finalIndex rs sst)%f64))]).
Proof. destruct rs; [congruence|reflexivity]. Qed.

(** X4. On records with numeric columns, [msy_tonnes > 0] and a catch that
    is not negative, the projected index computed in double precision is
    the current index plus the projected change, kept at 0 or above; the
    change is an integer from -5 to 0, so the projection never exceeds
    the current index. *)
Theorem projection_bounds
    (rq : option string) (rs : list Risk.StockRecord) (sst : JS.num) :
  rs <> [] -> Forall Risk.numeric rs -> Forall Risk.valid_msy rs ->
  Forall Risk64.catch_not_negative rs ->
  exists index m c : Z,
    Risk64.finalIndex rs sst = JS.of_Z index /\
    get "projection" (Risk64.scoreRisk rq rs sst)
    = Some (JObj [("index_6_month", JNum (JS.of_Z m));
                  ("change", JNum (JS.of_Z c))]) /\
    (-5 <= c <= 0)%Z /\ m = Z.max 0 (index + c) /\ (0 <= m <= index)%Z.
Proof.
  intros Hne Hnum Hmsy Hcatch.
  destruct (clamped_int (Risk64.sustainabilityIndex rs sst))
    as (i & Hi & Hib);
    [now apply sustainabilityIndex_not_nan|].
  destruct (clamped_int (Risk64.collapseRisk rs sst)) as (r & Hr & Hrb);
    [now apply collapseRisk_not_nan|].
  fold (Risk64.finalIndex rs sst) in Hi.
  fold (Risk64.finalCollapseRisk rs sst) in Hr.
  rewrite scoreRisk_projection by assumption.
  unfold Risk64.projectedIndex. rewrite Hi, Hr.
  pose proof projection_checked as Hall.
  rewrite forallb_forall in Hall.
  specialize (Hall i (in_range i Hib)).
  rewrite forallb_forall in Hall.
  specialize (Hall r (in_range r Hrb)).
  destruct (Risk64.projected (JS.of_Z i) (JS.of_Z r)) as [| | |p];
    try discriminate.
  destruct ($p - JS.of_Z i)%f64 as [| | |d]; try discriminate.
  cbv zeta in Hall.
  repeat (apply andb_prop in Hall; destruct Hall as [Hall ?]).
  exists i, (Z.max 0 (Qfloor (p + (1 # 2)))), (Qfloor (d + (1 # 2))).
  split; [reflexivity|]. split.
  - cbn [JS.round]. now rewrite max0_of_Z.
  - lia.
Qed.

Lemma projection_bounds_witness :
  exists index m c : Z,
    Risk64.finalIndex [Examples.full_use] $27 = JS.of_Z index /\
    get "projection" (Risk64.scoreRisk None [Examples.full_use] $27)
    = Some (JObj [("index_6_month", JNum (JS.of_Z m));
                  ("change", JNum (JS.of_Z c))]) /\
    (-5 <= c <= 0)%Z /\ m = Z.max 0 (index + c) /\ (0 <= m <= index)%Z.
Proof.
  apply (projection_bounds None [Examples.full_use] $27).
  - discriminate.
  - repeat constructor.
  - repeat constructor.
  - repeat constructor.
Defined.

End Projection64.



Section Trends.

Import Risk.







End Trends.

Section Levels.

Import Risk.







End Levels.

(* ================================================================== *)
(** * Suitability, score and alerts together *)
(* ================================================================== *)

Section SuitabilityFacts.

Import Fisheries.

Lemma not_gt_le (m w w' : JS.num) :
  (w' <=? w)%js = true -> (w >? m)%js = false -> (w' >? m)%js = false.
Proof.
  unfold JS.gt.
  destruct m as [| | |m], w as [| | |w], w' as [| | |w']; simpl;
    try congruence; intros H1 H2; qprop; apply Qltb_false; lra.
Qed.

(** X8. A calmer sea keeps a suitable species suitable: when the wave height
    goes down and the temperature stays, the result of a suitable
    species is unchanged. *)
Theorem calmer_sea_stays_suitable
    (now : Date) (sp : Species) (cd : CurrentData) (wave' : JS.num) :
  (wave' <=? wave_height cd)%js = true ->
  suitable (evaluateSuitability now sp cd) = true ->
  evaluateSuitability now sp
    {| sea_surface_temp := sea_surface_temp cd; wave_height := wave' |}
  = evaluateSuitability now sp cd.
Proof.
  intros Hle. unfold evaluateSuitability. cbv zeta.
  cbn [sea_surface_temp wave_height].
  destruct (String.eqb (legal_status sp) "Protected"); [discriminate|].
  destruct (negb (includes (season_months sp) (currentMonth now)));
    [discriminate|].
  destruct (_ || _); [discriminate|].
  destruct (wave_height cd >? max_wave_height sp)%js eqn:Hw; [discriminate|].
  intros _. now rewrite (not_gt_le _ _ _ Hle Hw).
Qed.

Lemma calmer_sea_stays_suitable_witness :
  evaluateSuitability Examples.january Examples.mackerel
    {| sea_surface_temp := $25; wave_height := $0.5 |}
  = evaluateSuitability Examples.january Examples.mackerel Examples.calm.
Proof.
  apply (calmer_sea_stays_suitable
           Examples.january Examples.mackerel Examples.calm $0.5);
    reflexivity.
Defined.


End SuitabilityFacts.


Lemma filter_Forall {A : Type} (p : A -> bool) (l : list A) :
  Forall (fun x => p x = true) l -> filter p l = l.
Proof.
  induction 1 as [|a l Ha _ IH]; [reflexivity|].
  cbn [filter]. now rewrite Ha, IH.
Qed.




Section ScoreAndAlerts.

Import Fisheries.





End ScoreAndAlerts.

Section MissingTemperature.

Import Fisheries.






(** The species is nevertheless reported as suitable. *)
Example suitable_without_a_temperature :
  suitable (evaluateSuitability Examples.january Examples.mackerel
              {| sea_surface_temp := JS.NaN; wave_height := $1 |}) = true.
Proof. reflexivity. Qed.

End MissingTemperature.

Section AlertList.

Import Fisheries.

Lemma alerts_shape (l : list Species) (score : JS.num) (cd : CurrentData) :
  generateFisheriesAlerts l score cd
  = ((if (wave_height cd >? $3)%js then [rough_sea_alert] else [])
     ++ (if (score <? $60)%js then [low_index_alert] else []))
    ++ flat_map Spec.alerts_of_species l.
Proof.
  unfold generateFisheriesAlerts, push. rewrite forEach_species_alerts.
  now destruct (wave_height cd >? $3)%js, (score <? $60)%js.
Qed.

Lemma alerts_of_species_nil (s : Species) :
  Spec.alerts_of_species s = [] <->
  (stock_health s <? $50)%js = false /\ legal_status s <> "Protected".
Proof.
  unfold Spec.alerts_of_species.
  destruct (stock_health s <? $50)%js;
    destruct (String.eqb_spec (legal_status s) "Protected");
    cbn [app]; split; try discriminate; try tauto;
    intros [H _]; discriminate H.
Qed.

Lemma flat_map_nil {A B : Type} (f : A -> list B) (l : list A) :
  flat_map f l = [] <-> Forall (fun x => f x = []) l.
Proof.
  induction l as [|a l IH]; cbn [flat_map].
  - split; [constructor|reflexivity].
  - split.
    + intros H. apply app_eq_nil in H. destruct H as [Ha Hl].
      constructor; [assumption|now apply IH].
    + intros H. inversion H as [|? ? Ha Hl]; subst.
      rewrite Ha. now apply IH.
Qed.

(** X11. The dashboard has no alert to show exactly when the waves are not
    above 3, the score is not below 60, and no species has a stock health
    below 50 or is protected. *)
Theorem no_alerts_iff (l : list Species) (score : JS.num) (cd : CurrentData) :
  generateFisheriesAlerts l score cd = [] <->
  (wave_height cd >? $3)%js = false /\
  (score <? $60)%js = false /\
  Forall (fun s => (stock_health s <? $50)%js = false
                   /\ legal_status s <> "Protected") l.
Proof.
  rewrite alerts_shape. split.
  - intros H. apply app_eq_nil in H. destruct H as [H Hl].
    apply app_eq_nil in H. destruct H as [Hw Hs].
    destruct (wave_height cd >? $3)%js; [discriminate|].
    destruct (score <? $60)%js; [discriminate|].
    repeat split. apply flat_map_nil in Hl.
    eapply Forall_impl; [|exact Hl]. intros s. apply alerts_of_species_nil.
  - intros (-> & -> & Hl). cbn [app]. apply flat_map_nil.
    eapply Forall_impl; [|exact Hl]. intros s. apply alerts_of_species_nil.
Qed.

Lemma no_alerts_iff_witness :
  generateFisheriesAlerts [Examples.mackerel] $83 Examples.calm = [].
Proof.
  apply (no_alerts_iff [Examples.mackerel] $83 Examples.calm).
  repeat split; try reflexivity.
  constructor; [|constructor]. split; [reflexivity|discriminate].
Defined.

(** X12. The number of alerts: one for high waves, one for a low score, and
    per species one for a stock health below 50 and one for protection;
    at most two more than twice the number of species. *)
Theorem alerts_count (l : list Species) (score : JS.num) (cd : CurrentData) :
  List.length (generateFisheriesAlerts l score cd)
  = (Nat.b2n (wave_height cd >? $3)%js + Nat.b2n (score <? $60)%js
     + Notions.count (fun s => (stock_health s <? $50)%js) l
     + Notions.count (fun s => String.eqb (legal_status s) "Protected") l)%nat
  /\ (List.length (generateFisheriesAlerts l score cd)
      <= 2 + 2 * List.length l)%nat.
Proof.
  assert (Hsp : List.length (flat_map Spec.alerts_of_species l)
                = (Notions.count (fun s => (stock_health s <? $50)%js) l
                   + Notions.count
                       (fun s => String.eqb (legal_status s) "Protected") l)%nat).
  { unfold Notions.count. induction l as [|s l IH]; [reflexivity|].
    cbn [flat_map filter]. rewrite length_app, IH.
    unfold Spec.alerts_of_species.
    destruct (stock_health s <? $50)%js;
      destruct (String.eqb (legal_status s) "Protected");
      cbn [app List.length]; lia. }
  assert (Heq : List.length (generateFisheriesAlerts l score cd)
    = (Nat.b2n (wave_height cd >? $3)%js + Nat.b2n (score <? $60)%js
       + Notions.count (fun s => (stock_health s <? $50)%js) l
       + Notions.count (fun s => String.eqb (legal_status s) "Protected") l)%nat).
  { rewrite alerts_shape, !length_app, Hsp.
    destruct (wave_height cd >? $3)%js, (score <? $60)%js;
      cbn [List.length Nat.b2n]; lia. }
  split; [exact Heq|]. rewrite Heq. unfold Notions.count.
  pose proof (filter_length_le (fun s => (stock_health s <? $50)%js) l).
  pose proof (filter_length_le
                (fun s => String.eqb (legal_status s) "Protected") l).
  destruct (wave_height cd >? $3)%js, (score <? $60)%js;
    cbn [Nat.b2n]; lia.
Qed.

End AlertList.

(* ================================================================== *)
(** * The dashboard *)
(* ================================================================== *)

Lemma mapi_filter_le {A B : Type}
    (f : A -> nat -> B) (q : B -> bool) (p : A -> bool) (l : list A) :
  (forall x i, q (f x i) = true -> p x = true) ->
  (List.length (filter q (Lang.mapi f l)) <= List.length (filter p l))%nat.
Proof.
  intros Hqp. unfold Lang.mapi. generalize 0%nat as k.
  induction l as [|a l IH]; intros k; [reflexivity|].
  cbn [List.length seq combine map filter fst snd].
  specialize (IH (S k)). specialize (Hqp a k).
  destruct (q (f a k)); destruct (p a); cbn [List.length]; try lia.
  all: try (specialize (Hqp eq_refl); discriminate Hqp).
Qed.

Section DashboardFacts.

Import Fisheries.

(** X13. The count of suitable species that the dashboard shows never counts
    a protected species: it is at most the number of species that are
    not protected, whatever the clock reads at each evaluation. *)
Theorem suitableCount_bound
    (clock : nat -> Date) (l : list Species) (cd : CurrentData) :
  (Dashboard.suitableCount (Dashboard.evaluationResults clock l cd)
   <= Notions.count
        (fun s => negb (String.eqb (legal_status s) "Protected")) l)%nat
  /\ (Notions.count
        (fun s => negb (String.eqb (legal_status s) "Protected")) l
      <= List.length l)%nat.
Proof.
  split; [|apply filter_length_le].
  unfold Dashboard.suitableCount, Dashboard.evaluationResults, Notions.count.
  apply mapi_filter_le. intros s i. cbn [Dashboard.result].
  unfold evaluateSuitability.
  now destruct (String.eqb (legal_status s) "Protected").
Qed.

Example one_of_two_suitable :
  Dashboard.suitableCount
    (Dashboard.evaluationResults (fun _ => Examples.january)
       [Examples.mackerel; Examples.hilsa] Examples.calm) = 1%nat.
Proof. reflexivity. Qed.

(** X14. Whenever the meter of a score that is a number reads "Critical
    Warning", it is drawn in the warning colour and the alerts hold the
    low-sustainability warning. *)
Theorem critical_meter_has_alert
    (l : list Species) (score : JS.num) (cd : CurrentData) :
  JS.is_nan score = false ->
  Dashboard.meterLabel score = "Critical Warning" ->
  Dashboard.getColor score = "#ff4d6d" /\
  In low_index_alert (generateFisheriesAlerts l score cd).
Proof.
  intros Hnan Hlabel.
  unfold Dashboard.meterLabel in Hlabel. unfold Dashboard.getColor.
  destruct (score >=? $70)%js eqn:E70; [discriminate|].
  destruct (score >=? $50)%js eqn:E50; [discriminate|].
  split; [reflexivity|].
  assert (Hlt : (score <? $60)%js = true).
  { unfold JS.ge in E50. destruct score as [| | |q]; try discriminate;
      try reflexivity. simpl in E50 |- *. qprop. apply Qltb_true. lra. }
  rewrite alerts_shape, Hlt.
  apply in_or_app. left. apply in_or_app. right. now left.
Qed.

Lemma critical_meter_has_alert_witness :
  In low_index_alert
     (generateFisheriesAlerts [Examples.hilsa] $41 Examples.hot).
Proof.
  apply (critical_meter_has_alert [Examples.hilsa] $41 Examples.hot);
    reflexivity.
Defined.

(** A score that is [NaN] reads "Critical Warning" without the alert. *)
Example critical_meter_of_NaN :
  Dashboard.meterLabel JS.NaN = "Critical Warning" /\
  generateFisheriesAlerts [] JS.NaN Examples.calm = [].
Proof. split; reflexivity. Qed.

End DashboardFacts.

(* ================================================================== *)
(** * The sustainability score grows with the stock health *)
(* ================================================================== *)

Section ScoreMonotone.

Import Fisheries.









End ScoreMonotone.

(* ================================================================== *)
(** * The year filter and the parameter toggles of the application *)
(* ================================================================== *)

Section YearFilterFacts.

Variable Row : Type.
Variable year : Row -> JS.num.

(** X16. The rows handed to the charts are rows of the selected year, at most
    [MAX_RENDER_ROWS] of them, and they are the last rows of that year in
    the order of the archive: all of them when there are no more than
    [MAX_RENDER_ROWS]. *)
Theorem filteredHistorical_bounds
    (histAllData : list Row) (selectedYear : JS.num) :
  let all := App.yearRows Row year histAllData selectedYear in
  let shown := App.filteredHistorical Row year histAllData selectedYear in
  (List.length shown <= App.MAX_RENDER_ROWS)%nat /\
  Forall (fun r => Lang.strict_eq (year r) selectedYear = true) shown /\
  (exists dropped, all = dropped ++ shown) /\
  ((List.length all <= App.MAX_RENDER_ROWS)%nat -> shown = all) /\
  ((App.MAX_RENDER_ROWS < List.length all)%nat ->
     List.length shown = App.MAX_RENDER_ROWS).
Proof.
  intros all shown. unfold shown, App.filteredHistorical. fold all.
  assert (Hall : Forall (fun r => Lang.strict_eq (year r) selectedYear = true)
                        all).
  { apply Forall_forall. intros r Hr. unfold all, App.yearRows in Hr.
    now apply filter_In in Hr. }
  generalize App.MAX_RENDER_ROWS as m. intros m.
  destruct (m <? List.length all)%nat eqn:E.
  - apply Nat.ltb_lt in E.
    assert (Hsplit : all = firstn (List.length all - m) all
                           ++ skipn (List.length all - m) all)
      by (symmetry; apply firstn_skipn).
    repeat split.
    + rewrite length_skipn. lia.
    + rewrite Hsplit in Hall. now apply Forall_app in Hall.
    + now exists (firstn (List.length all - m) all).
    + intros Hle. lia.
    + intros _. rewrite length_skipn. lia.
  - apply Nat.ltb_ge in E. repeat split; try assumption; try lia.
    now exists [].
Qed.

End YearFilterFacts.

Section Toggles.

Lemma includes_In (prev : list string) (key : string) :
  App.includes prev key = true <-> In key prev.
Proof.
  unfold App.includes. rewrite existsb_exists. split.
  - intros (k & Hk & Heq). apply String.eqb_eq in Heq. now subst.
  - intros Hin. exists key. split; [assumption|apply String.eqb_refl].
Qed.

Lemma filter_other_absent (prev : list string) (key : string) :
  ~ In key prev ->
  filter (fun k => negb (String.eqb k key)) prev = prev.
Proof.
  intros Hnot. apply filter_Forall. apply Forall_forall. intros k Hk.
  destruct (String.eqb_spec k key); [subst; contradiction|reflexivity].
Qed.

(** One toggle keeps a list of active parameters non-empty and without
    repetition. *)
Lemma toggleParam_invariant (prev : list string) (key : string) :
  prev <> [] /\ NoDup prev ->
  App.toggleParam prev key <> [] /\ NoDup (App.toggleParam prev key).
Proof.
  intros [Hne Hnd]. unfold App.toggleParam.
  destruct (App.includes prev key) eqn:Hinc.
  - destruct (1 <? List.length prev)%nat eqn:Hlen; [|now split].
    split; [|now apply NoDup_filter].
    destruct prev as [|a [|b rest]]; try discriminate.
    inversion Hnd as [|? ? Hab _]; subst.
    cbn [filter].
    destruct (String.eqb_spec a key) as [->|_]; cbn [negb]; [|discriminate].
    destruct (String.eqb_spec b key) as [->|_]; cbn [negb]; [|discriminate].
    exfalso. apply Hab. now left.
  - split; [now destruct prev|].
    assert (Hnot : ~ In key prev).
    { intros Hin. apply includes_In in Hin. congruence. }
    apply NoDup_app; [assumption|repeat constructor; intros []|].
    intros k Hk [<-|[]]. contradiction.
Qed.

(** X17. Whatever parameters the user toggles, in whatever order, at least
    one parameter stays active and no parameter is listed twice. *)
Theorem activeParams_invariant (keys : list string) :
  fold_left App.toggleParam keys App.initialParams <> [] /\
  NoDup (fold_left App.toggleParam keys App.initialParams).
Proof.
  assert (Hinit : App.initialParams <> [] /\ NoDup App.initialParams).
  { split; [discriminate|].
    repeat constructor; cbn [In]; intros H;
      repeat destruct H as [H|H]; try discriminate H; assumption. }
  revert Hinit. generalize App.initialParams as prev.
  induction keys as [|key keys IH]; intros prev Hprev; [exact Hprev|].
  cbn [fold_left]. apply IH. now apply toggleParam_invariant.
Qed.

(** X18. Switching on a parameter that is off and switching it off again
    gives back the list of active parameters. *)
Theorem toggleParam_on_off (prev : list string) (key : string) :
  prev <> [] -> App.includes prev key = false ->
  App.toggleParam (App.toggleParam prev key) key = prev.
Proof.
  intros Hne Hoff.
  assert (Hnot : ~ In key prev).
  { intros Hin. apply includes_In in Hin. congruence. }
  unfold App.toggleParam at 2. rewrite Hoff. unfold App.toggleParam.
  assert (Hon : App.includes (prev ++ [key]) key = true).
  { apply includes_In, in_or_app. right. now left. }
  rewrite Hon.
  assert (Hlen : (1 <? List.length (prev ++ [key]))%nat = true).
  { apply Nat.ltb_lt. rewrite length_app. destruct prev; [congruence|].
    cbn [List.length]. lia. }
  rewrite Hlen, filter_app, filter_other_absent by assumption.
  cbn [filter]. rewrite String.eqb_refl. cbn [negb]. apply app_nil_r.
Qed.

Lemma toggleParam_on_off_witness :
  App.toggleParam (App.toggleParam App.initialParams "wave_height")
                  "wave_height"
  = App.initialParams.
Proof.
  apply (toggleParam_on_off App.initialParams "wave_height").
  - discriminate.
  - reflexivity.
Defined.

(** The last active parameter cannot be switched off. *)
Example last_parameter_stays :
  App.toggleParam ["wind_speed"] "wind_speed" = ["wind_speed"].
Proof. reflexivity. Qed.

End Toggles.

Lemma filteredHistorical_bounds_witness :
  App.filteredHistorical JS.num (fun y => y) [$2022; $2023; $2023] $2023
  = App.yearRows JS.num (fun y => y) [$2022; $2023; $2023] $2023.
Proof.
  apply (filteredHistorical_bounds JS.num (fun y => y)
           [$2022; $2023; $2023] $2023).
  apply Nat.leb_le. vm_compute. reflexivity.
Defined.

(* ================================================================== *)
(** * The live forecast: from the weather service to the client *)
(* ================================================================== *)

Lemma mapi_nth_error {A B : Type} (f : A -> nat -> B) (l : list A) (i : nat) :
  nth_error (Lang.mapi f l) i = option_map (fun x => f x i) (nth_error l i).
Proof.
  unfold Lang.mapi.
  assert (Hgen : forall k,
    nth_error (map (fun it => f (snd it) (fst it))
                   (combine (seq k (List.length l)) l)) i
    = option_map (fun x => f x (k + i)%nat) (nth_error l i)).
  { revert i. induction l as [|a l IH]; intros i k.
    - now destruct i.
    - cbn [List.length seq combine map fst snd].
      destruct i as [|i]; cbn [nth_error option_map].
      + now rewrite Nat.add_0_r.
      + rewrite IH. now rewrite Nat.add_succ_comm. }
  apply (Hgen 0%nat).
Qed.


Lemma mapi_ext {A B : Type} (f g : A -> nat -> B) (l : list A) :
  (forall x i, f x i = g x i) -> Lang.mapi f l = Lang.mapi g l.
Proof.
  intros Hfg. unfold Lang.mapi. apply map_ext. intros [i x]. apply Hfg.
Qed.

Section BuoyRows.

Import Buoy.


Example rows_of_short_arrays :
  map wind_speed (route_rows Samples.sea Samples.forecast)
  = [Some $12; None; None] /\
  map air_pressure (route_rows Samples.sea Samples.forecast)
  = [None; None; None].
Proof. split; reflexivity. Qed.

(** X20. The sea-surface temperature of a row of the Express route is the
    reading of the marine response at that hour when there is one, and
    otherwise that of the forecast ([null] when there is none either). *)
Theorem route_prefers_marine_sst
    (marine : Marine) (weather : Weather) (i : nat) (r : Row) :
  nth_error (route_rows marine weather) i = Some r ->
  (forall v, at_index (Notions.marine_sst marine) i = Some v ->
     sea_surface_temp r = Some v) /\
  (at_index (Notions.marine_sst marine) i = None ->
     sea_surface_temp r = at_index (Notions.forecast_sst weather) i).
Proof.
  unfold route_rows. rewrite mapi_nth_error.
  destruct (nth_error (times weather) i) as [t|]; [|discriminate].
  cbn [option_map]. intros [= <-]. cbn [sea_surface_temp].
  unfold Notions.marine_sst, Notions.forecast_sst. split.
  - intros v Hv. now rewrite Hv.
  - intros Hnone. now rewrite Hnone.
Qed.

Lemma route_prefers_marine_sst_witness :
  sea_surface_temp Samples.second_row
  = at_index (Notions.forecast_sst Samples.forecast) 1.
Proof.
  apply (route_prefers_marine_sst Samples.sea Samples.forecast 1
           Samples.second_row); reflexivity.
Defined.

Example sst_of_the_two_sources :
  map sea_surface_temp (route_rows Samples.sea Samples.forecast)
  = [Some $26; Some $27.5; Some $28] /\
  map sea_surface_temp (handler_rows Samples.sea Samples.forecast)
  = [Some $27; Some $27.5; Some $28].
Proof. split; reflexivity. Qed.

(** X21. The Express route and the serverless handler give the same answer
    when the requests fail, and when the marine response has no
    sea-surface temperature. *)
Theorem handlers_agree_without_marine_sst
    (lat lon : JS.num) (message : string)
    (marine : Marine) (weather : Weather) :
  route lat lon (Failed message) = handler lat lon (Failed message) /\
  ((forall i, at_index (Notions.marine_sst marine) i = None) ->
   route lat lon (Fetched marine weather)
   = handler lat lon (Fetched marine weather)).
Proof.
  split; [reflexivity|].
  intros Hnone. unfold route, handler.
  destruct (Lang.isNaN lat || Lang.isNaN lon); [reflexivity|].
  do 2 f_equal. unfold route_rows, handler_rows. apply mapi_ext.
  intros t i. f_equal.
  fold (Notions.marine_sst marine). now rewrite Hnone.
Qed.

Lemma handlers_agree_without_marine_sst_witness :
  route $12 $80 (Fetched Samples.sea_without_sst Samples.forecast)
  = handler $12 $80 (Fetched Samples.sea_without_sst Samples.forecast).
Proof.
  apply (handlers_agree_without_marine_sst $12 $80 ""
           Samples.sea_without_sst Samples.forecast).
  intros i. reflexivity.
Defined.

End BuoyRows.

Section Client.

(** X22. A request that succeeds reaches the client as the rows that the
    handler merged, in order, with [null] for every missing reading:
    [fetchBuoyData] returns exactly these rows, from the Express route
    and from the serverless handler. *)
Theorem fetchBuoyData_round_trip
    (lat lon : JS.num) (marine : Buoy.Marine) (weather : Buoy.Weather) :
  Lang.isNaN lat = false -> Lang.isNaN lon = false ->
  Api.fetchBuoyData
    (Notions.buoy_response (Buoy.route lat lon (Buoy.Fetched marine weather)))
  = Api.Returned (map Buoy.row_wire (Buoy.route_rows marine weather)) /\
  Api.fetchBuoyData
    (Notions.buoy_response
       (Buoy.handler lat lon (Buoy.Fetched marine weather)))
  = Api.Returned (map Buoy.row_wire (Buoy.handler_rows marine weather)).
Proof.
  intros Hlat Hlon. unfold Buoy.route, Buoy.handler.
  rewrite Hlat, Hlon. split; reflexivity.
Qed.

Lemma fetchBuoyData_round_trip_witness :
  Api.fetchBuoyData
    (Notions.buoy_response
       (Buoy.route $12 $80 (Buoy.Fetched Samples.sea Samples.forecast)))
  = Api.Returned
      (map Buoy.row_wire (Buoy.route_rows Samples.sea Samples.forecast)).
Proof.
  apply (fetchBuoyData_round_trip $12 $80 Samples.sea Samples.forecast);
    reflexivity.
Defined.

(** X23. The client throws with the message of the server: a latitude or a
    longitude that is not a number is reported as the missing query
    parameters, and a failure of the weather service with its own
    message. *)
Theorem fetchBuoyData_errors
    (lat lon : JS.num) (u : Buoy.upstream) (message : string) :
  (Lang.isNaN lat || Lang.isNaN lon = true ->
   Api.fetchBuoyData (Notions.buoy_response (Buoy.route lat lon u))
   = Api.Thrown (Api.ErrorOf
       (Lang.WStr "lat and lon query params are required"))) /\
  (Lang.isNaN lat || Lang.isNaN lon = false ->
   Api.fetchBuoyData
     (Notions.buoy_response (Buoy.route lat lon (Buoy.Failed message)))
   = Api.Thrown (Api.ErrorOf
       (Lang.WStr ("Failed to fetch live data: " ++ message)))).
Proof.
  unfold Buoy.route. split; intros ->; reflexivity.
Qed.

Lemma fetchBuoyData_errors_witness :
  Api.fetchBuoyData
    (Notions.buoy_response (Buoy.route JS.NaN $80 (Buoy.Failed "timeout")))
  = Api.Thrown (Api.ErrorOf
      (Lang.WStr "lat and lon query params are required")).
Proof.
  apply (fetchBuoyData_errors JS.NaN $80 (Buoy.Failed "timeout") "").
  reflexivity.
Defined.

(** X24. [fetchBuoyData] accepts both shapes of a successful answer: an
    object whose [data] is an array, and the array itself. *)
Theorem fetchBuoyData_both_shapes
    (status : nat) (fields : list (string * Lang.wire))
    (rows : list Lang.wire) :
  (200 <= status <= 299)%nat ->
  Api.fetchBuoyData (Api.http status (Lang.WArr rows)) = Api.Returned rows /\
  (Lang.prop "data" (Lang.WObj fields) = Some (Lang.WArr rows) ->
   Api.fetchBuoyData (Api.http status (Lang.WObj fields))
   = Api.Returned rows).
Proof.
  intros [Hlo Hhi].
  assert (Hok : forall b, Api.ok (Api.http status b) = true).
  { intros b. unfold Api.ok, Api.http. cbn [Api.status].
    apply andb_true_iff. split; now apply Nat.leb_le. }
  unfold Api.fetchBuoyData. split.
  - rewrite Hok. reflexivity.
  - intros Hdata. rewrite Hok. cbn [negb Api.parsed Api.http Lang.truthy].
    now rewrite Hdata.
Qed.

Lemma fetchBuoyData_both_shapes_witness :
  Api.fetchBuoyData (Api.http 200 (Lang.WArr [Lang.WNull]))
  = Api.Returned [Lang.WNull].
Proof.
  apply (fetchBuoyData_both_shapes 200 [] [Lang.WNull]). lia.
Defined.

(** X25. The archive reaches the client row by row: [fetchHistoricalBuoyData]
    returns the rows that the stream emitted, and throws with the message
    of the handler when the file is missing or cannot be read. *)
Theorem fetchHistoricalBuoyData_round_trip (file : option Historical.stream) :
  Api.fetchHistoricalBuoyData
    (Notions.historical_response (Historical.handler file))
  = match file with
    | Some (Historical.Ended rows) =>
        Api.Returned (map Historical.row_wire rows)
    | Some Historical.Errored =>
        Api.Thrown (Api.ErrorOf (Lang.WStr "Failed to read CSV"))
    | None =>
        Api.Thrown (Api.ErrorOf (Lang.WStr "Historical data file not found"))
    end.
Proof. destruct file as [[rows|]|]; reflexivity. Qed.

Example archive_round_trip :
  Api.fetchHistoricalBuoyData
    (Notions.historical_response
       (Historical.handler (Some (Historical.Ended Samples.archive))))
  = Api.Returned
      [Lang.WObj [("YY", Lang.WStr "2023"); ("WTMP", Lang.WStr "14.2")];
       Lang.WObj [("YY", Lang.WStr "2023"); ("WTMP", Lang.WStr "MM")]].
Proof. reflexivity. Qed.

End Client.
